(** * Plottable: numeric axis, component container, grid plot, rectangle drawer

    A shallow embedding of four source files of the charting library:
    - [src/axes/numericAxis.ts]       (class [Numeric]),
    - the component container         (class [ComponentContainer]),
    - the grid plot                   (class [Plots.Grid]),
    - the rectangle drawer            (class [Rectangle]).

    JavaScript numbers are modelled as rationals ([Q]); the comparisons the
    code performs are the boolean comparisons of [Module JS].  Methods that
    mutate an object or call a collaborator are functions in the state and
    exception monad [JS.M]; the calls made on collaborators that are not part
    of these files are recorded in a log kept in the state.

    Part I holds the embedding, Part II the properties. *)

From Stdlib Require Import QArith Qminmax Lqa ZArith Lia Ascii.
From stdpp Require Import base gmap strings list.

Set Default Proof Using "Type".

(* ================================================================== *)
(** * Part I.  The embedding *)
(* ================================================================== *)

(** ** JavaScript numbers and effects *)

Module JS.

(** [x < y], [x > y], [x <= y], [x >= y] on numbers. *)
Definition lt (x y : Q) : bool := negb (Qle_bool y x).
Definition gt (x y : Q) : bool := lt y x.
Definition le (x y : Q) : bool := Qle_bool x y.
Definition ge (x y : Q) : bool := Qle_bool y x.

(** [Math.max(x, y)]. *)
Definition Math_max (x y : Q) : Q := if Qle_bool x y then y else x.

(** [s.toLowerCase()], on the ASCII letters. *)
Definition lower_ascii (c : ascii) : ascii :=
  let n := nat_of_ascii c in
  if (65 <=? n)%nat && (n <=? 90)%nat then ascii_of_nat (n + 32) else c.

Fixpoint toLowerCase (s : string) : string :=
  match s with
  | EmptyString => EmptyString
  | String c s' => String (lower_ascii c) (toLowerCase s')
  end.

(** The values an attribute, an accessor or a projector may produce. *)
Inductive value : Type :=
| VUndefined
| VNull
| VBool (b : bool)
| VNum (n : Q)
| VStr (s : string).

(** The test [if (v)]: [undefined], [null], [false], [0] and the empty
    string are falsy, everything else is truthy. *)
Definition truthy (v : value) : bool :=
  match v with
  | VUndefined | VNull => false
  | VBool b => b
  | VNum n => negb (Qeq_bool n 0)
  | VStr s => negb (String.eqb s "")
  end.

(** The state and exception monad.  A method call either returns a value or
    throws an [Error] with a message; in both cases it leaves a state behind,
    so that what a method did before it threw stays visible. *)
Inductive outcome (A : Type) : Type :=
| Return (a : A)
| Throw (message : string).
Arguments Return {A} a.
Arguments Throw {A} message.

Definition M (S A : Type) : Type := S -> outcome A * S.

Definition ret {S A} (a : A) : M S A := fun s => (Return a, s).

Definition bind {S A B} (c : M S A) (k : A -> M S B) : M S B :=
  fun s =>
    match c s with
    | (Return a, s') => k a s'
    | (Throw msg, s') => (Throw msg, s')
    end.

Definition throw {S A} (msg : string) : M S A := fun s => (Throw msg, s).
Definition get {S} : M S S := fun s => (Return s, s).
Definition gets {S A} (f : S -> A) : M S A := fun s => (Return (f s), s).
Definition modify {S} (f : S -> S) : M S unit := fun s => (Return tt, f s).

(** [xs.map(f)] and [xs.forEach(f)] for an effectful callback that also
    receives the index. *)
Fixpoint mapM_from {S A B} (f : A -> nat -> M S B) (i : nat) (xs : list A)
  : M S (list B) :=
  match xs with
  | [] => ret []
  | x :: xs' =>
      bind (f x i) (fun y =>
      bind (mapM_from f (Datatypes.S i) xs') (fun ys => ret (y :: ys)))
  end.

Fixpoint forEach_from {S A} (f : A -> nat -> M S unit) (i : nat) (xs : list A)
  : M S unit :=
  match xs with
  | [] => ret tt
  | x :: xs' => bind (f x i) (fun _ => forEach_from f (Datatypes.S i) xs')
  end.

Definition mapM {S A B} (f : A -> M S B) : list A -> M S (list B) :=
  mapM_from (fun x _ => f x) 0.

Definition forEach {S A} (f : A -> nat -> M S unit) : list A -> M S unit :=
  forEach_from f 0.

Module Notations.
Notation "'let!' x ':=' c 'in' k" := (bind c (fun x => k))
  (at level 10, x name, c at level 100, k at level 200).
Notation "'do!' c 'in' k" := (bind c (fun _ => k))
  (at level 10, c at level 100, k at level 200).
End Notations.

End JS.

Import JS.Notations.

(** ** [Utils.DOM] and [Utils.Math] *)

(** A [ClientRect] as the DOM returns it from [getBoundingClientRect]. *)
Record ClientRect : Type := mkClientRect {
  rect_left : Q;
  rect_top : Q;
  rect_right : Q;
  rect_bottom : Q;
  rect_width : Q;
  rect_height : Q
}.

(** The two helpers of [Utils.DOM] that the numeric axis calls.  They are
    declared in [../utils], which is not among the files embedded here, so
    the axis is stated over this interface. *)
Class UtilsDOM : Type := {
  expandRect : ClientRect -> Q -> ClientRect;
  clientRectsOverlap : ClientRect -> ClientRect -> bool
}.

Module SpecDOM.

(** Modelled from the spec: [Utils.DOM.expandRect] is missing from the
    sources; the spec describes it as "expanding each rect by a padding on
    all sides". *)
Definition expandRect_model (rect : ClientRect) (amount : Q) : ClientRect :=
  {| rect_left := rect_left rect - amount;
     rect_top := rect_top rect - amount;
     rect_right := rect_right rect + amount;
     rect_bottom := rect_bottom rect + amount;
     rect_width := rect_width rect + amount * 2;
     rect_height := rect_height rect + amount * 2 |}.

(** Modelled from the spec: [Utils.DOM.clientRectsOverlap] is missing from
    the sources; the spec only speaks of rects "overlapping", taken here as
    the two boxes sharing interior points. *)
Definition clientRectsOverlap_model (a b : ClientRect) : bool :=
  JS.lt (rect_left a) (rect_right b) && JS.lt (rect_left b) (rect_right a)
  && JS.lt (rect_top a) (rect_bottom b) && JS.lt (rect_top b) (rect_bottom a).

Definition utils : UtilsDOM :=
  {| expandRect := expandRect_model;
     clientRectsOverlap := clientRectsOverlap_model |}.

End SpecDOM.

(** Modelled from the spec: [Utils.Math.max(values, default)] is missing from
    the sources; the spec uses it for "the maximum measured label extent
    across all current tick values", with the default for no value. *)
Definition Utils_Math_max (values : list Q) (default : Q) : Q :=
  match values with
  | [] => default
  | v :: vs => foldl JS.Math_max v vs
  end.

(** ** The numeric axis: [src/axes/numericAxis.ts] *)

Module NumericAxis.

(** [type AxisOrientation = "bottom" | "left" | "right" | "top"]. *)
Inductive AxisOrientation : Type :=
| OrientBottom
| OrientLeft
| OrientRight
| OrientTop.

(** What the axis reads of its [QuantitativeScale<number>]: [domain()] and
    [ticks()]. *)
Record QuantitativeScale : Type := mkScale {
  scale_domain : Q * Q;
  scale_ticks : list Q
}.

(** The result of [SVGTypewriter.Measurer.measure]. *)
Record Dimensions : Type := mkDimensions {
  dim_width : Q;
  dim_height : Q
}.

(** A tick label element: its bounding client rect and its [visibility]
    style. *)
Record TickLabel : Type := mkTickLabel {
  label_rect : ClientRect;
  label_visibility : string
}.

(** Calls on collaborators whose code is outside this file. *)
Inductive Call : Type :=
| CallRedraw
| CallRender
| CallMeasure (text : option string).

(** The fields of a [Numeric] axis that the methods below read or write:
    its own two private fields, and the state of the base classes [Axis]
    and [Component] behind the getters the methods call. *)
Record Numeric : Type := mkNumeric {
  _tickLabelPositioning : string;
  _usesTextWidthApproximation : bool;
  _scale : QuantitativeScale;
  _orientation : AxisOrientation;
  _isSetup : bool;
  _formatter : Q -> string;
  _tickLabelPadding : Q;
  _tickLength : Q;
  _width : Q;
  _margin : Q;
  _measurer : option string -> Dimensions;
  _tickLabels : list TickLabel;
  calls : list Call
}.

Definition set_tickLabelPositioning (p : string) (a : Numeric) : Numeric :=
  mkNumeric p (_usesTextWidthApproximation a) (_scale a) (_orientation a)
    (_isSetup a) (_formatter a) (_tickLabelPadding a) (_tickLength a)
    (_width a) (_margin a) (_measurer a) (_tickLabels a) (calls a).

Definition set_tickLabels (ls : list TickLabel) (a : Numeric) : Numeric :=
  mkNumeric (_tickLabelPositioning a) (_usesTextWidthApproximation a)
    (_scale a) (_orientation a) (_isSetup a) (_formatter a)
    (_tickLabelPadding a) (_tickLength a) (_width a) (_margin a)
    (_measurer a) ls (calls a).

Definition log (c : Call) (a : Numeric) : Numeric :=
  mkNumeric (_tickLabelPositioning a) (_usesTextWidthApproximation a)
    (_scale a) (_orientation a) (_isSetup a) (_formatter a)
    (_tickLabelPadding a) (_tickLength a) (_width a) (_margin a)
    (_measurer a) (_tickLabels a) (calls a ++ [c]).

(** Getters of the base classes. *)
Definition tickLabelPadding (a : Numeric) : Q := _tickLabelPadding a.
Definition _maxLabelTickLength (a : Numeric) : Q := _tickLength a.
Definition width (a : Numeric) : Q := _width a.
Definition margin (a : Numeric) : Q := _margin a.
Definition formatter (a : Numeric) : Q -> string := _formatter a.

(** Modelled from the spec: [Axis.isHorizontal] is declared in [./axis],
    which is missing from the sources; the spec lists the orientations
    top/bottom/left/right, and an axis at the top or bottom runs
    horizontally. *)
Definition isHorizontal (a : Numeric) : bool :=
  match _orientation a with
  | OrientTop | OrientBottom => true
  | OrientLeft | OrientRight => false
  end.

(** [this.redraw()] and [this.render()]. *)
Definition redraw : JS.M Numeric unit := JS.modify (log CallRedraw).
Definition render : JS.M Numeric unit := JS.modify (log CallRender).

(** [this._measurer.measure(text)].  The field [_measurer] is declared
    without an initialiser and assigned only by [_setup]: on an axis that is
    not set up [this._measurer] is [undefined], and reading its [measure]
    property is a [TypeError] raised before any measurer is called. *)
Definition measure (text : option string) : JS.M Numeric Dimensions :=
  let! isSetup := JS.gets _isSetup in
  if isSetup then
    do! JS.modify (log (CallMeasure text)) in
    JS.gets (fun a => _measurer a text)
  else JS.throw "TypeError: this._measurer is undefined".

(** [_getTickValues] *)
Definition _getTickValues (a : Numeric) : list Q :=
  let scale := _scale a in
  let domain := scale_domain scale in
  let min := if JS.le domain.1 domain.2 then domain.1 else domain.2 in
  let max := if JS.ge domain.1 domain.2 then domain.1 else domain.2 in
  List.filter (fun i => JS.ge i min && JS.le i max) (scale_ticks scale).

(** [_computeExactTextWidth] *)
Definition _computeExactTextWidth : JS.M Numeric Q :=
  let! tickValues := JS.gets _getTickValues in
  let! textLengths :=
    JS.mapM (fun v =>
      let! fmt := JS.gets formatter in
      let formattedValue := fmt v in
      let! d := measure (Some formattedValue) in
      JS.ret (dim_width d)) tickValues in
  JS.ret (Utils_Math_max textLengths 0).

(** [_computeApproximateTextWidth] *)
Definition _computeApproximateTextWidth : JS.M Numeric Q :=
  let! tickValues := JS.gets _getTickValues in
  let! m := measure (Some "M") in
  let mWidth := dim_width m in
  let! textLengths :=
    JS.mapM (fun v =>
      let! fmt := JS.gets formatter in
      let formattedValue := fmt v in
      JS.ret (inject_Z (Z.of_nat (String.length formattedValue)) * mWidth)%Q)
      tickValues in
  JS.ret (Utils_Math_max textLengths 0).

(** [_computeWidth] *)
Definition _computeWidth : JS.M Numeric Q :=
  let! approx := JS.gets _usesTextWidthApproximation in
  let! maxTextWidth :=
    (if approx then _computeApproximateTextWidth else _computeExactTextWidth) in
  let! a := JS.get in
  if String.eqb (_tickLabelPositioning a) "center" then
    JS.ret (_maxLabelTickLength a + tickLabelPadding a + maxTextWidth)%Q
  else
    JS.ret (JS.Math_max (_maxLabelTickLength a)
                        (tickLabelPadding a + maxTextWidth))%Q.

(** [_computeHeight] *)
Definition _computeHeight : JS.M Numeric Q :=
  let! d := measure None in
  let textHeight := dim_height d in
  let! a := JS.get in
  if String.eqb (_tickLabelPositioning a) "center" then
    JS.ret (_maxLabelTickLength a + tickLabelPadding a + textHeight)%Q
  else
    JS.ret (JS.Math_max (_maxLabelTickLength a)
                        (tickLabelPadding a + textHeight))%Q.

(** [_rescale].  The [return] after [this.redraw()] is the first branch of
    the inner conditional; every other path falls through to
    [this.render()]. *)
Definition _rescale : JS.M Numeric unit :=
  let! isSetup := JS.gets _isSetup in
  if negb isSetup then JS.ret tt
  else
    let! horizontal := JS.gets isHorizontal in
    if negb horizontal then
      let! reComputedWidth := _computeWidth in
      let! a := JS.get in
      if JS.gt reComputedWidth (width a)
         || JS.lt reComputedWidth (width a - margin a)
      then redraw
      else render
    else render.

(** What [tickLabelPosition] returns: the current position (getter) or
    [this] (setter). *)
Inductive PositionResult : Type :=
| CurrentPosition (position : string)
| This.

(** [tickLabelPosition(position?)]; [None] is an absent ([null] or
    [undefined]) argument. *)
Definition tickLabelPosition (position : option string)
  : JS.M Numeric PositionResult :=
  match position with
  | None =>
      let! p := JS.gets _tickLabelPositioning in
      JS.ret (CurrentPosition p)
  | Some position =>
      let positionLC := JS.toLowerCase position in
      let! horizontal := JS.gets isHorizontal in
      do! (if horizontal then
             if negb (String.eqb positionLC "left"
                      || String.eqb positionLC "center"
                      || String.eqb positionLC "right")
             then JS.throw (positionLC ++
               " is not a valid tick label position for a horizontal NumericAxis")
             else JS.ret tt
           else
             if negb (String.eqb positionLC "top"
                      || String.eqb positionLC "center"
                      || String.eqb positionLC "bottom")
             then JS.throw (positionLC ++
               " is not a valid tick label position for a vertical NumericAxis")
             else JS.ret tt) in
      do! JS.modify (set_tickLabelPositioning positionLC) in
      do! redraw in
      JS.ret This
  end.

Section Overlap.
Context `{UtilsDOM}.

(** The [for] loop of [_hasOverlapWithInterval], from index [i] on.  [None]
    stands for no result: the loop did not finish within [fuel] rounds, or
    it read past the end of the array. *)
Fixpoint hasOverlap_for (fuel interval : nat)
    (rectsWithPadding : list ClientRect) (i : nat) : option bool :=
  match fuel with
  | O => None
  | S fuel' =>
      if (i <? length rectsWithPadding - interval)%nat then
        match rectsWithPadding !! i, rectsWithPadding !! (i + interval)%nat with
        | Some currRect, Some nextRect =>
            if clientRectsOverlap currRect nextRect then Some false
            else hasOverlap_for fuel' interval rectsWithPadding (i + interval)
        | _, _ => None
        end
      else Some true
  end.

(** [_hasOverlapWithInterval(interval, rects)]: despite its name it answers
    [true] when no tested pair overlaps. *)
Definition _hasOverlapWithInterval (fuel : nat) (a : Numeric) (interval : nat)
    (rects : list ClientRect) : option bool :=
  let padding :=
    if String.eqb (_tickLabelPositioning a) "center"
    then tickLabelPadding a
    else (tickLabelPadding a * 3)%Q in
  let rectsWithPadding := List.map (fun rect => expandRect rect padding) rects in
  hasOverlap_for fuel interval rectsWithPadding 0.

(** The [while] loop of [_hideOverlappingTickLabels]: the value of
    [interval] when the loop is left. *)
Fixpoint interval_while (fuel : nat) (a : Numeric) (rects : list ClientRect)
    (interval : nat) : option nat :=
  match fuel with
  | O => None
  | S fuel' =>
      match _hasOverlapWithInterval (S fuel') a interval rects with
      | None => None
      | Some noOverlap =>
          if negb noOverlap && (interval <? length rects)%nat
          then interval_while fuel' a rects (interval + 1)
          else Some interval
      end
  end.

(** The filter of [_hideOverlappingTickLabels]. *)
Definition isVisible (label : TickLabel) : bool :=
  String.eqb (label_visibility label) "inherit"
  || String.eqb (label_visibility label) "visible".

Definition hide (label : TickLabel) : TickLabel :=
  mkTickLabel (label_rect label) "hidden".

(** [visibleTickLabels.each(...)]: the filtered selection holds the label
    elements themselves, and [i] counts within the filtered selection. *)
Fixpoint hide_each (interval i : nat) (labels : list TickLabel)
  : list TickLabel :=
  match labels with
  | [] => []
  | label :: rest =>
      if isVisible label then
        (if negb (i mod interval =? 0)%nat then hide label else label)
        :: hide_each interval (S i) rest
      else label :: hide_each interval i rest
  end.

(** [_hideOverlappingTickLabels] *)
Definition _hideOverlappingTickLabels (fuel : nat) (a : Numeric)
  : option Numeric :=
  let visibleTickLabels := List.filter isVisible (_tickLabels a) in
  let visibleTickLabelRects := List.map label_rect visibleTickLabels in
  match interval_while fuel a visibleTickLabelRects 1 with
  | None => None
  | Some interval => Some (set_tickLabels (hide_each interval 0 (_tickLabels a)) a)
  end.

End Overlap.

End NumericAxis.

(** ** The component container *)

Module Container.

(** A component is known by its identity. *)
Definition Component : Type := nat.

(** Calls the container makes on a component, on itself and on its own
    overridable [_remove]. *)
Inductive Call : Type :=
| CallOffDetach (component : Component)
| Call_remove (component : Component)
| CallDetach (component : Component)
| CallRedraw.

(** A container over the child collection [C] of a concrete variant. *)
Record ComponentContainer (C : Type) : Type := mkContainer {
  children : C;
  calls : list Call
}.
Arguments mkContainer {C} children calls.
Arguments children {C} c.
Arguments calls {C} c.

(** The two methods of [ComponentContainer] used by [remove] that the
    concrete containers override. *)
Class Variant (C : Type) : Type := {
  has : Component -> C -> JS.outcome bool;
  _remove : Component -> C -> bool * C
}.


(** Modelled from the spec: the "flat list container" variant is missing from
    the sources; its children are a list, [has] is membership and [_remove]
    takes the component out of the list, answering whether it was there. *)
Definition Group : Variant (list Component) :=
  {| has := fun component cs => JS.Return (bool_decide (component ∈ cs));
     _remove := fun component cs =>
       (bool_decide (component ∈ cs),
        List.filter (fun c => negb (Nat.eqb c component)) cs) |}.

Section Methods.
Context {C : Type} `{Variant C}.

Definition log (c : Call) (s : ComponentContainer C) : ComponentContainer C :=
  mkContainer (children s) (calls s ++ [c]).

(** [this.has(component)] and [this._remove(component)] on the container. *)
Definition call_has (component : Component)
  : JS.M (ComponentContainer C) bool :=
  fun s =>
    match has component (children s) with
    | JS.Return b => (JS.Return b, s)
    | JS.Throw msg => (JS.Throw msg, s)
    end.

Definition call_remove (component : Component)
  : JS.M (ComponentContainer C) bool :=
  fun s =>
    let r := _remove component (children s) in
    (JS.Return r.1, mkContainer r.2 (calls s ++ [Call_remove component])).

(** [remove(component)]; the result [this] is the state left behind. *)
Definition remove (component : Component) : JS.M (ComponentContainer C) unit :=
  let! member := call_has component in
  if member then
    do! JS.modify (log (CallOffDetach component)) in
    do! call_remove component in
    do! JS.modify (log (CallDetach component)) in
    JS.modify (log CallRedraw)
  else JS.ret tt.

End Methods.

End Container.

(** ** The grid plot *)

Module GridPlot.

Section Grid.
(** A datum of a dataset, and the user and plot metadata handed to every
    accessor. *)
Context {Datum UserMetadata PlotMetadata : Type}.

(** Scales are objects shared with the caller: they live in a store and the
    plot holds references to them. *)
Definition ScaleRef : Type := nat.

(** Modelled from the spec: [Scales.Category] is missing from the sources;
    the spec gives it inner and outer padding, [scale(value)] and the band
    width [rangeBand()].  Where a category falls and how wide a band is
    depend on the two paddings. *)
Record Category : Type := mkCategory {
  _innerPadding : Q;
  _outerPadding : Q;
  layout_scale : Q -> Q -> JS.value -> Q;
  layout_rangeBand : Q -> Q -> Q
}.

Definition Category_scale (c : Category) (v : JS.value) : Q :=
  layout_scale c (_innerPadding c) (_outerPadding c) v.
Definition rangeBand (c : Category) : Q :=
  layout_rangeBand c (_innerPadding c) (_outerPadding c).
Definition innerPadding (n : Q) (c : Category) : Category :=
  mkCategory n (_outerPadding c) (layout_scale c) (layout_rangeBand c).
Definition outerPadding (n : Q) (c : Category) : Category :=
  mkCategory (_innerPadding c) n (layout_scale c) (layout_rangeBand c).

(** The scale classes the plot tells apart with [instanceof]. *)
Inductive Scale : Type :=
| ScaleCategory (c : Category)
| ScaleQuantitative (scale : JS.value -> Q)
| ScaleOther (scale : JS.value -> JS.value).

(** An accessor is either a function handed in by the user or one of the
    closures [Grid.project] creates; a closure keeps the scale it was made
    for and reads [this._projections[attr]] when it is called. *)
Definition AccessorFn : Type :=
  Datum -> nat -> UserMetadata -> PlotMetadata -> JS.value.

Inductive Accessor : Type :=
| UserAccessor (f : AccessorFn)
| BandStart (attr : string) (scale : ScaleRef)
| BandEnd (attr : string) (scale : ScaleRef)
| ScaledValue (attr : string) (scale : ScaleRef).

Record Projection : Type := mkProjection {
  accessor : Accessor;
  scale : option ScaleRef
}.

Inductive Animator : Type :=
| AnimatorNull.

(** The fields of the plot: [_colorScale] is declared by [Grid], the others
    by its base classes. *)
Record Grid : Type := mkGrid {
  _colorScale : option ScaleRef;
  _projections : gmap string Projection;
  _datasetKeysInOrder : list string;
  _key2PlotDatasetKey : gmap string (list Datum);
  _cssClasses : gset string;
  _animators : gmap string Animator
}.

(** The plot, the scale objects it shares with its caller, and the warnings
    written by [Utils.Methods.warn]. *)
Record World : Type := mkWorld {
  plot : Grid;
  scales : gmap ScaleRef Scale;
  warnings : list string
}.

Definition set_plot (g : Grid) (w : World) : World :=
  mkWorld g (scales w) (warnings w).
Definition set_scales (h : gmap ScaleRef Scale) (w : World) : World :=
  mkWorld (plot w) h (warnings w).
Definition warn (msg : string) : JS.M World unit :=
  JS.modify (fun w => mkWorld (plot w) (scales w) (warnings w ++ [msg])).

Definition set_colorScale (s : option ScaleRef) (g : Grid) : Grid :=
  mkGrid s (_projections g) (_datasetKeysInOrder g) (_key2PlotDatasetKey g)
    (_cssClasses g) (_animators g).
Definition set_projections (ps : gmap string Projection) (g : Grid) : Grid :=
  mkGrid (_colorScale g) ps (_datasetKeysInOrder g) (_key2PlotDatasetKey g)
    (_cssClasses g) (_animators g).

(** [this.classed(cls, true)] and [this.animator(key, animator)], setters of
    the base classes. *)
Definition classed (cls : string) : JS.M World unit :=
  JS.modify (fun w => set_plot
    (mkGrid (_colorScale (plot w)) (_projections (plot w))
       (_datasetKeysInOrder (plot w)) (_key2PlotDatasetKey (plot w))
       ({[cls]} ∪ _cssClasses (plot w)) (_animators (plot w))) w).
Definition animator (key : string) (a : Animator) : JS.M World unit :=
  JS.modify (fun w => set_plot
    (mkGrid (_colorScale (plot w)) (_projections (plot w))
       (_datasetKeysInOrder (plot w)) (_key2PlotDatasetKey (plot w))
       (_cssClasses (plot w)) (<[key := a]> (_animators (plot w)))) w).

(** The methods [Grid] inherits and calls through [super] whose behaviour
    the spec does not describe: the constructor of [Rectangle] and
    [addDataset]. *)
Inductive KeyOrDataset : Type :=
| Key (key : string)
| Data (dataset : list Datum).

Class Inherited : Type := {
  super_constructor : ScaleRef -> ScaleRef -> JS.M World unit;
  super_addDataset : KeyOrDataset -> option (list Datum) -> JS.M World unit
}.

(** Modelled from the spec: [super.project] is missing from the sources; the
    spec defines a projection as "a named mapping from a dataset attribute
    to a visual attribute via an accessor function and optional scale", and
    [Grid] reads it back as [this._projections[attr]]. *)
Definition super_project (attrToSet : string) (acc : Accessor)
    (scale : option ScaleRef) : JS.M World unit :=
  JS.modify (fun w => set_plot
    (set_projections (<[attrToSet := mkProjection acc scale]>
                        (_projections (plot w))) (plot w)) w).

(** [scale instanceof Scales.Category] and
    [scale instanceof Scales.AbstractQuantitative], for a scale argument
    that may be absent. *)
Definition instanceofCategory (w : World) (scale : option ScaleRef) : bool :=
  match scale with
  | Some r =>
      match scales w !! r with Some (ScaleCategory _) => true | _ => false end
  | None => false
  end.
Definition instanceofQuantitative (w : World) (scale : option ScaleRef)
  : bool :=
  match scale with
  | Some r =>
      match scales w !! r with
      | Some (ScaleQuantitative _) => true
      | _ => false
      end
  | None => false
  end.

(** [if (cond) { body }] *)
Definition when (cond : bool) (body : JS.M World unit) : JS.M World unit :=
  if cond then body else JS.ret tt.

(** A method call on a category scale object: [xScale.innerPadding(0)]. *)
Definition onCategory (r : ScaleRef) (f : Category -> Category)
  : JS.M World unit :=
  let! w := JS.get in
  match scales w !! r with
  | Some (ScaleCategory c) =>
      JS.modify (set_scales (<[r := ScaleCategory (f c)]> (scales w)))
  | _ => JS.throw "TypeError: not a category scale"
  end.

Section Methods.
Context `{Inherited}.

(** [constructor(xScale, yScale, colorScale)] *)
Definition constructor (xScale yScale colorScale : ScaleRef)
  : JS.M World unit :=
  do! super_constructor xScale yScale in
  do! classed "grid-plot" in
  let! w := JS.get in
  do! when (instanceofCategory w (Some xScale))
        (do! onCategory xScale (innerPadding 0) in
         onCategory xScale (outerPadding 0)) in
  let! w := JS.get in
  do! when (instanceofCategory w (Some yScale))
        (do! onCategory yScale (innerPadding 0) in
         onCategory yScale (outerPadding 0)) in
  do! JS.modify (fun w => set_plot (set_colorScale (Some colorScale) (plot w)) w) in
  animator "cells" AnimatorNull.

(** [addDataset(keyOrDataset, dataset?)]; the result [this] is the plot left
    in the state. *)
Definition addDataset (keyOrDataset : KeyOrDataset)
    (dataset : option (list Datum)) : JS.M World unit :=
  let! w := JS.get in
  if (length (_datasetKeysInOrder (plot w)) =? 1)%nat then
    do! warn "Only one dataset is supported in Grid plots" in
    JS.ret tt
  else
    do! super_addDataset keyOrDataset dataset in
    JS.ret tt.

End Methods.

(** The body of [project(attrToSet, accessor, scale?)], with [self] for the
    calls of [this.project] it makes. *)
Definition project_body
    (self : string -> Accessor -> option ScaleRef -> JS.M World unit)
    (attrToSet : string) (acc : Accessor) (scale : option ScaleRef)
  : JS.M World unit :=
  do! super_project attrToSet acc scale in
  do! when (String.eqb attrToSet "x")
        (match scale with
         | Some r =>
             let! w := JS.get in
             do! when (instanceofCategory w scale)
                   (do! self "x1" (BandStart "x" r) None in
                    self "x2" (BandEnd "x" r) None) in
             let! w := JS.get in
             when (instanceofQuantitative w scale)
               (self "x1" (ScaledValue "x" r) None)
         | None => JS.ret tt
         end) in
  do! when (String.eqb attrToSet "y")
        (match scale with
         | Some r =>
             let! w := JS.get in
             do! when (instanceofCategory w scale)
                   (do! self "y1" (BandStart "y" r) None in
                    self "y2" (BandEnd "y" r) None) in
             let! w := JS.get in
             when (instanceofQuantitative w scale)
               (self "y1" (ScaledValue "y" r) None)
         | None => JS.ret tt
         end) in
  when (String.eqb attrToSet "fill")
    (let! w := JS.get in
     match _projections (plot w) !! "fill" with
     | Some (mkProjection _ fillScale) =>
         JS.modify (set_plot (set_colorScale fillScale (plot w)))
     | None => JS.throw "TypeError: undefined projection"
     end).

(** [project], allowed [depth] nested calls of itself. *)
Fixpoint project (depth : nat) (attrToSet : string) (acc : Accessor)
    (scale : option ScaleRef) : JS.M World unit :=
  match depth with
  | O => JS.throw "RangeError: maximum call stack size exceeded"
  | S depth' => project_body (project depth') attrToSet acc scale
  end.

(** Calling an accessor on [(d, i, u, m)] in the world [w], allowed [depth]
    nested calls.  The closures are those of [project]:
    [scale.scale(this._projections[attr].accessor(d, i, u, m))], minus or
    plus [scale.rangeBand() / 2] for the two band closures. *)
Fixpoint callAccessor (depth : nat) (w : World) (acc : Accessor)
    (d : Datum) (i : nat) (u : UserMetadata) (m : PlotMetadata)
  : JS.outcome JS.value :=
  match depth with
  | O => JS.Throw "RangeError: maximum call stack size exceeded"
  | S depth' =>
      let inner attr :=
        match _projections (plot w) !! attr with
        | Some p => callAccessor depth' w (accessor p) d i u m
        | None => JS.Throw "TypeError: undefined projection"
        end in
      match acc with
      | UserAccessor f => JS.Return (f d i u m)
      | BandStart attr r =>
          match inner attr, scales w !! r with
          | JS.Return v, Some (ScaleCategory c) =>
              JS.Return (JS.VNum (Category_scale c v - rangeBand c / 2))
          | JS.Throw e, _ => JS.Throw e
          | _, _ => JS.Throw "TypeError: not a category scale"
          end
      | BandEnd attr r =>
          match inner attr, scales w !! r with
          | JS.Return v, Some (ScaleCategory c) =>
              JS.Return (JS.VNum (Category_scale c v + rangeBand c / 2))
          | JS.Throw e, _ => JS.Throw e
          | _, _ => JS.Throw "TypeError: not a category scale"
          end
      | ScaledValue attr r =>
          match inner attr, scales w !! r with
          | JS.Return v, Some (ScaleQuantitative q) => JS.Return (JS.VNum (q v))
          | JS.Throw e, _ => JS.Throw e
          | _, _ => JS.Throw "TypeError: not a quantitative scale"
          end
      end
  end.

(** The value of the projection [attr] for a datum: projections derived by
    [project] carry no scale, so their accessor is the projector. *)
Definition projected (depth : nat) (w : World) (attr : string)
    (d : Datum) (i : nat) (u : UserMetadata) (m : PlotMetadata)
  : JS.outcome JS.value :=
  match _projections (plot w) !! attr with
  | Some p => callAccessor depth w (accessor p) d i u m
  | None => JS.Throw "TypeError: undefined projection"
  end.

End Grid.

End GridPlot.

(** ** The rectangle drawer *)

Module RectangleDrawer.

(** A colour of [d3-color]: its three channels and its [opacity] property,
    which the drawer assigns. *)
Record Color : Type := mkColor {
  channels : Q * Q * Q;
  opacity : JS.value
}.

Definition set_opacity (o : JS.value) (c : Color) : Color :=
  mkColor (channels c) o.

(** What the drawer uses of [d3]: [d3.color(specifier)], which answers
    [null] for what it cannot parse, and [color.rgb().toString()]. *)
Class D3 : Type := {
  color : JS.value -> option Color;
  rgb_toString : Color -> string
}.

(** The calls that draw on a [CanvasRenderingContext2D]; a stroke or a fill
    is painted in the style set on the context at that moment. *)
Inductive CanvasCall : Type :=
| BeginPath
| Rect (x y w h : JS.value)
| Stroke (style : string)
| Fill (style : string).

Record Context : Type := mkContext {
  strokeStyle : string;
  fillStyle : string;
  drawn : list CanvasCall
}.

Definition draw (c : CanvasCall) : JS.M Context unit :=
  JS.modify (fun ctx =>
    mkContext (strokeStyle ctx) (fillStyle ctx) (drawn ctx ++ [c])).
Definition beginPath : JS.M Context unit := draw BeginPath.
Definition rect (x y w h : JS.value) : JS.M Context unit := draw (Rect x y w h).
Definition stroke : JS.M Context unit :=
  let! ctx := JS.get in draw (Stroke (strokeStyle ctx)).
Definition fill : JS.M Context unit :=
  let! ctx := JS.get in draw (Fill (fillStyle ctx)).
Definition set_strokeStyle (s : string) : JS.M Context unit :=
  JS.modify (fun ctx => mkContext s (fillStyle ctx) (drawn ctx)).
Definition set_fillStyle (s : string) : JS.M Context unit :=
  JS.modify (fun ctx => mkContext (strokeStyle ctx) s (drawn ctx)).

Section Drawer.
Context {Datum : Type} `{D3}.

(** An [AppliedDrawStep]: the attribute names in the order of
    [Object.keys], each with its projector. *)
Record AppliedDrawStep : Type := mkStep {
  attrToAppliedProjector : list (string * (Datum -> nat -> JS.value))
}.

(** The [reduce] over [Object.keys(attrToAppliedProjector)]. *)
Definition resolve (step : AppliedDrawStep) (point : Datum) (index : nat)
  : gmap string JS.value :=
  foldl (fun obj entry => <[entry.1 := entry.2 point index]> obj) ∅
    (attrToAppliedProjector step).

(** [resolvedAttrs[name]] *)
Definition attr (resolvedAttrs : gmap string JS.value) (name : string)
  : JS.value :=
  default JS.VUndefined (resolvedAttrs !! name).

Definition when (cond : bool) (body : JS.M Context unit) : JS.M Context unit :=
  if cond then body else JS.ret tt.

(** The callback of [data.forEach] in [_canvasDraw]. *)
Definition drawPoint (step : AppliedDrawStep) (point : Datum) (index : nat)
  : JS.M Context unit :=
  let resolvedAttrs := resolve step point index in
  do! beginPath in
  do! rect (attr resolvedAttrs "x") (attr resolvedAttrs "y")
        (attr resolvedAttrs "width") (attr resolvedAttrs "height") in
  do! when (JS.truthy (attr resolvedAttrs "stroke"))
        (match color (attr resolvedAttrs "stroke") with
         | None => JS.throw "TypeError: strokeColor is null"
         | Some strokeColor =>
             let strokeColor :=
               if JS.truthy (attr resolvedAttrs "opacity")
               then set_opacity (attr resolvedAttrs "opacity") strokeColor
               else strokeColor in
             do! set_strokeStyle (rgb_toString strokeColor) in
             stroke
         end) in
  when (JS.truthy (attr resolvedAttrs "fill"))
    (match color (attr resolvedAttrs "fill") with
     | None => JS.throw "TypeError: fillColor is null"
     | Some fillColor =>
         let fillColor :=
           if JS.truthy (attr resolvedAttrs "opacity")
           then set_opacity (attr resolvedAttrs "opacity") fillColor
           else fillColor in
         do! set_fillStyle (rgb_toString fillColor) in
         fill
     end).

(** [_canvasDraw(data, step, context)] *)
Definition _canvasDraw (data : list Datum) (step : AppliedDrawStep)
  : JS.M Context unit :=
  JS.forEach (drawPoint step) data.

End Drawer.

End RectangleDrawer.

(** ** Vocabulary of the properties

    The notions in which Part II states what the code does. *)

Module NumericAxisSpec.
Import NumericAxis.

(** The positions the setter accepts, after lowercasing. *)
Definition validPosition (horizontal : bool) (position : string) : bool :=
  if horizontal
  then String.eqb position "left" || String.eqb position "center"
       || String.eqb position "right"
  else String.eqb position "top" || String.eqb position "center"
       || String.eqb position "bottom".

Definition invalidPositionMessage (horizontal : bool) (positionLC : string)
  : string :=
  positionLC ++ " is not a valid tick label position for a "
  ++ (if horizontal then "horizontal" else "vertical") ++ " NumericAxis".

(** The axis with further calls recorded. *)
Definition add_calls (cs : list Call) (a : Numeric) : Numeric :=
  mkNumeric (_tickLabelPositioning a) (_usesTextWidthApproximation a)
    (_scale a) (_orientation a) (_isSetup a) (_formatter a)
    (_tickLabelPadding a) (_tickLength a) (_width a) (_margin a)
    (_measurer a) (_tickLabels a) (calls a ++ cs).

Definition is_measure (c : Call) : Prop := exists text, c = CallMeasure text.

(** A computation that, on an axis that is set up, returns normally and does
    nothing to the axis but call the measurer. *)
Definition measuring {A} (c : JS.M Numeric A) : Prop :=
  forall a, _isSetup a = true ->
    exists x cs,
      c a = (JS.Return x, add_calls cs a) /\ Forall is_measure cs.

Section Overlap.
Context `{UtilsDOM}.

(** The padding by which [_hasOverlapWithInterval] expands every rect. *)
Definition padding (a : Numeric) : Q :=
  if String.eqb (_tickLabelPositioning a) "center"
  then tickLabelPadding a
  else (tickLabelPadding a * 3)%Q.

(** The rects of the labels that are visible, in tick order. *)
Definition visibleRects (a : Numeric) : list ClientRect :=
  List.map label_rect (List.filter isVisible (_tickLabels a)).

(** The rects at positions [i] and [j] overlap once each is expanded by the
    padding. *)
Definition overlapping (a : Numeric) (rects : list ClientRect) (i j : nat)
  : Prop :=
  exists ri rj,
    rects !! i = Some ri /\ rects !! j = Some rj /\
    clientRectsOverlap (expandRect ri (padding a)) (expandRect rj (padding a))
      = true.

(** No two neighbours among the rects at the multiples of [interval]
    overlap: the pairs [(0, interval)], [(interval, 2 * interval)], ... *)
Definition kept_disjoint (a : Numeric) (rects : list ClientRect)
    (interval : nat) : Prop :=
  forall j, ~ overlapping a rects (j * interval) (j * interval + interval).

(** No two rects that are [interval] apart overlap: the pairs
    [(i, i + interval)] for every [i]. *)
Definition all_disjoint (a : Numeric) (rects : list ClientRect)
    (interval : nat) : Prop :=
  forall i, ~ overlapping a rects i (i + interval).

(** The position of the label at index [p] among the visible labels. *)
Definition rank (labels : list TickLabel) (p : nat) : nat :=
  length (List.filter isVisible (take p labels)).

(** The pairs the [for] loop tests from index [i] on. *)
Definition pairs_disjoint_from (interval : nat) (rects : list ClientRect)
    (i : nat) : Prop :=
  forall j c n,
    rects !! (i + j * interval) = Some c ->
    rects !! (i + j * interval + interval) = Some n ->
    clientRectsOverlap c n = false.

(** The interval as the spec words its acceptance: every pair of rects that
    are [interval] apart is disjoint, unless the search has stopped at the
    number of rects. *)
Definition accepted_as_specified (a : Numeric) (interval : nat) : Prop :=
  all_disjoint a (visibleRects a) interval
  \/ interval = length (visibleRects a).

End Overlap.

End NumericAxisSpec.


(** ** Concrete inputs *)

Module AxisExamples.
Import NumericAxis.

(** The rect spanning [left, right] horizontally and [top, bottom]
    vertically. *)
Definition span (left right top bottom : Q) : ClientRect :=
  mkClientRect left top right bottom (right - left) (bottom - top).

(** A bottom axis in "center" mode with the given tick-label padding and
    tick labels. *)
Definition axis_with (labelPadding : Q) (labels : list TickLabel) : Numeric :=
  mkNumeric "center" false (mkScale (0%Q, 100%Q) []) OrientBottom true
    (fun _ => "") labelPadding 5%Q 400%Q 15%Q (fun _ => mkDimensions 0 0)
    labels [].

(** Four visible labels spanning [0,10], [8,18], [20,30] and [40,50], all
    between [top] and [bottom]. *)
Definition spans_labels (top bottom : Q) : list TickLabel :=
  [ mkTickLabel (span 0 10 top bottom) "inherit";
    mkTickLabel (span 8 18 top bottom) "inherit";
    mkTickLabel (span 20 30 top bottom) "inherit";
    mkTickLabel (span 40 50 top bottom) "inherit" ].

(** Five visible labels centred 30 apart, short and long in turn: 10 wide at
    0, 60 and 120, 100 wide at 30 and 90. *)
Definition alternating_labels : list TickLabel :=
  [ mkTickLabel (span (-5) 5 0 10) "inherit";
    mkTickLabel (span (-20) 80 0 10) "inherit";
    mkTickLabel (span 55 65 0 10) "inherit";
    mkTickLabel (span 40 140 0 10) "inherit";
    mkTickLabel (span 115 125 0 10) "inherit" ].

Definition alternating_axis : Numeric := axis_with 2 alternating_labels.

(** An axis on the left, 40 wide with margin 15, whose three ticks are
    formatted to one, two and three characters, each 7 wide. *)
Definition rescale_example : Numeric :=
  mkNumeric "center" false (mkScale (0%Q, 10%Q) [0%Q; 5%Q; 10%Q]) OrientLeft
    true (fun v => if Qle_bool v 0 then "0" else if Qle_bool v 5 then "50" else "100")
    10%Q 5%Q 40%Q 15%Q
    (fun text => mkDimensions
       (match text with Some t => inject_Z (Z.of_nat (String.length t)) * 7
        | None => 0 end) 12%Q)
    [] [].

End AxisExamples.

Module ContainerSpec.
Import Container.

(** The calls [remove] makes, in order, for a component it removes. *)
Definition removal_calls (component : Component) : list Call :=
  [CallOffDetach component; Call_remove component; CallDetach component;
   CallRedraw].


End ContainerSpec.

Module GridPlotSpec.
Import GridPlot.

Section Grid.
Context {Datum UserMetadata PlotMetadata : Type}.

(** A category scale with both paddings at 0 and the rest as it was. *)
Definition zero_padding (c : Category) : Category :=
  mkCategory 0 0 (layout_scale c) (layout_rangeBand c).

(** The store with the paddings of the scale at [r] set to 0 when that scale
    is a category scale. *)
Definition zero_at (r : ScaleRef) (h : gmap ScaleRef Scale)
  : gmap ScaleRef Scale :=
  match h !! r with
  | Some (ScaleCategory c) => <[r := ScaleCategory (zero_padding c)]> h
  | _ => h
  end.

(** The world after the single-dataset warning. *)
Definition warned (w : @World Datum UserMetadata PlotMetadata)
  : @World Datum UserMetadata PlotMetadata :=
  mkWorld (plot w) (scales w)
    (warnings w ++ ["Only one dataset is supported in Grid plots"]).

End Grid.

End GridPlotSpec.

Module DrawerSpec.
Import RectangleDrawer.

Section Drawer.
Context {Datum : Type} `{D3}.

(** The colour with the resolved opacity put over its own, when an opacity
    is resolved at all. *)
Definition with_opacity (o : JS.value) (c : Color) : Color :=
  match o with
  | JS.VUndefined | JS.VNull => c
  | _ => set_opacity o c
  end.

(** The style in which an attribute is painted: none for an absent
    attribute, otherwise the colour it names with the resolved opacity. *)
Definition paint (v o : JS.value) : option string :=
  match v with
  | JS.VUndefined | JS.VNull => None
  | _ => (fun c => rgb_toString (with_opacity o c)) <$> color v
  end.

(** The calls the spec asks for one datum: the rectangle path, a stroke
    when the stroke attribute is a colour, a fill when the fill attribute is
    one. *)
Definition specified_calls (resolvedAttrs : gmap string JS.value)
  : list CanvasCall :=
  [BeginPath;
   Rect (attr resolvedAttrs "x") (attr resolvedAttrs "y")
        (attr resolvedAttrs "width") (attr resolvedAttrs "height")]
  ++ match paint (attr resolvedAttrs "stroke") (attr resolvedAttrs "opacity") with
     | Some style => [Stroke style]
     | None => []
     end
  ++ match paint (attr resolvedAttrs "fill") (attr resolvedAttrs "opacity") with
     | Some style => [Fill style]
     | None => []
     end.

(** An attribute that is absent or names a colour [d3] can parse. *)
Definition colour_or_absent (v : JS.value) : Prop :=
  v = JS.VUndefined \/ v = JS.VNull
  \/ (JS.truthy v = true /\ is_Some (color v)).

(** An opacity that is absent or is taken for present by the test
    [if (resolvedAttrs["opacity"])]. *)
Definition opacity_seen_or_absent (o : JS.value) : Prop :=
  o = JS.VUndefined \/ o = JS.VNull \/ JS.truthy o = true.

(** The calls for a whole array, datum by datum from index [i] on. *)
Fixpoint specified_calls_from (step : AppliedDrawStep) (i : nat)
    (data : list Datum) : list CanvasCall :=
  match data with
  | [] => []
  | point :: rest =>
      specified_calls (resolve step point i)
      ++ specified_calls_from step (S i) rest
  end.

End Drawer.

End DrawerSpec.

Module ContainerExamples.
Import Container.

(** A list container holding the components 1, 2 and 3. *)
Definition three_children : ComponentContainer (list Component) :=
  mkContainer [1; 2; 3] [].


End ContainerExamples.

Module GridExamples.
Import GridPlot.

(** Inherited methods that do nothing, to run the methods of [Grid] on
    concrete plots. *)
Definition idle_super : @Inherited nat unit unit :=
  {| super_constructor := fun _ _ => JS.ret tt;
     super_addDataset := fun _ _ => JS.ret tt |}.

(** A category scale with bands 20 wide, whose categories are numbered and
    centred at 10, 30, 50, ... *)
Definition bands : Category :=
  mkCategory (3 # 10) (1 # 10)
    (fun _ _ v => match v with JS.VNum n => n * 20 + 10 | _ => 0 end)%Q
    (fun _ _ => 20%Q).

Definition empty_plot : @Grid nat unit unit :=
  mkGrid None ∅ [] ∅ ∅ ∅.

(** A plot holding one dataset under the key "a". *)
Definition one_dataset_plot : @Grid nat unit unit :=
  mkGrid None ∅ ["a"] {["a" := [1; 2; 3]]} ∅ ∅.

(** Scale 0 is the category scale [bands], scale 1 a quantitative scale. *)
Definition two_scales : gmap ScaleRef (@Scale) :=
  {[ 0 := ScaleCategory bands;
     1 := ScaleQuantitative
            (fun v => match v with JS.VNum n => n | _ => 0%Q end) ]}.

Definition empty_world : @World nat unit unit :=
  mkWorld empty_plot two_scales [].
Definition one_dataset_world : @World nat unit unit :=
  mkWorld one_dataset_plot two_scales [].

(** The accessor that reads the datum itself as the category number. *)
Definition self_accessor : @AccessorFn nat unit unit :=
  fun d _ _ _ => JS.VNum (inject_Z (Z.of_nat d)).

End GridExamples.

Module DrawerExamples.
Import RectangleDrawer.

(** A step for a 10 by 10 rectangle at the origin, filled red, with the
    given opacity. *)
Definition red_square (opacityValue : JS.value) : @AppliedDrawStep nat :=
  mkStep
    [ ("x", fun _ _ => JS.VNum 0); ("y", fun _ _ => JS.VNum 0);
      ("width", fun _ _ => JS.VNum 10); ("height", fun _ _ => JS.VNum 10);
      ("fill", fun _ _ => JS.VStr "red");
      ("opacity", fun _ _ => opacityValue) ].

Definition opaque_red : Color := mkColor (255, 0, 0)%Q (JS.VNum 1).

(** A [d3] that knows the colour named red and prints only the opacity of a
    colour. *)
Definition red_only : D3 :=
  {| color := fun v =>
       match v with
       | JS.VStr "red" => Some opaque_red
       | _ => None
       end;
     rgb_toString := fun c =>
       match opacity c with
       | JS.VNum n => if Qeq_bool n 1 then "rgb(255, 0, 0)"
                      else if Qeq_bool n 0 then "rgba(255, 0, 0, 0)"
                      else "rgba(255, 0, 0, a)"
       | _ => "rgb(255, 0, 0)"
       end |}.

Definition blank : Context := mkContext "#000000" "#000000" [].

End DrawerExamples.

(** ** More of the numeric axis *)

Module NumericAxisMore.
Import NumericAxis.

Definition set_usesTextWidthApproximation (enable : bool) (a : Numeric)
  : Numeric :=
  mkNumeric (_tickLabelPositioning a) enable (_scale a) (_orientation a)
    (_isSetup a) (_formatter a) (_tickLabelPadding a) (_tickLength a)
    (_width a) (_margin a) (_measurer a) (_tickLabels a) (calls a).

(** What [usesTextWidthApproximation] returns: the current setting (getter)
    or [this] (setter). *)
Inductive ApproximationResult : Type :=
| CurrentSetting (enabled : bool)
| ThisAxis.

(** [usesTextWidthApproximation(enable?)] *)
Definition usesTextWidthApproximation (enable : option bool)
  : JS.M Numeric ApproximationResult :=
  match enable with
  | None =>
      let! enabled := JS.gets _usesTextWidthApproximation in
      JS.ret (CurrentSetting enabled)
  | Some enable =>
      do! JS.modify (set_usesTextWidthApproximation enable) in
      JS.ret ThisAxis
  end.

Section EndLabels.
(** [Utils.DOM.clientRectInside], declared in [../utils]. *)
Variable clientRectInside : ClientRect -> ClientRect -> bool.

(** [d3.select(label).style("visibility", "hidden")] on the label at index
    [i] of the selection. *)
Definition hide_at (i : nat) : JS.M Numeric unit :=
  let! labels := JS.gets _tickLabels in
  match labels !! i with
  | Some label => JS.modify (set_tickLabels (<[i := hide label]> labels))
  | None => JS.throw "TypeError: undefined tick label"
  end.

(** [label.getBoundingClientRect()] of the label at index [i]. *)
Definition rect_at (i : nat) : JS.M Numeric ClientRect :=
  let! labels := JS.gets _tickLabels in
  match labels !! i with
  | Some label => JS.ret (label_rect label)
  | None => JS.throw "TypeError: undefined tick label"
  end.

(** [_hideEndTickLabels], for the client rect [boundingBox] of the bounding
    box of the axis. *)
Definition _hideEndTickLabels (boundingBox : ClientRect)
  : JS.M Numeric unit :=
  let! tickLabels := JS.gets _tickLabels in
  if (length tickLabels =? 0)%nat then JS.ret tt
  else
    let! firstRect := rect_at 0 in
    do! (if negb (clientRectInside firstRect boundingBox)
         then hide_at 0 else JS.ret tt) in
    let! lastRect := rect_at (length tickLabels - 1) in
    if negb (clientRectInside lastRect boundingBox)
    then hide_at (length tickLabels - 1) else JS.ret tt.

End EndLabels.

End NumericAxisMore.

(** ** More of the component container *)

Module ContainerLifecycle.
Import Container.

(** Calls of the lifecycle methods: on the base class and on a child. *)
Inductive LifecycleCall : Type :=
| SuperAnchor
| SuperDestroy
| ChildAnchor (component : Component)
| ChildRender (component : Component)
| ChildDestroy (component : Component)
| ChildInvalidateCache (component : Component).

(** [_forEach(callback)] of a concrete container: the children on which it
    invokes the callback, in its order of iteration. *)
Class Iteration (C : Type) : Type := {
  _forEach : C -> JS.outcome (list Component)
}.

(** [_forEach] as [ComponentContainer] itself defines it. *)
Definition BaseIteration : Iteration unit :=
  {| _forEach := fun _ =>
       JS.Throw "_forEach() is not implemented on ComponentContainer" |}.

Record Lifecycle (C : Type) : Type := mkLifecycle {
  members : C;
  lifecycle_calls : list LifecycleCall
}.
Arguments mkLifecycle {C} members lifecycle_calls.
Arguments members {C} l.
Arguments lifecycle_calls {C} l.

(** What a child does to the container while one of its own methods runs.
    The components are written outside this file, and their methods can
    reach back into the container: [_adoptAndAnchor] subscribes
    [_detachCallback] on every child, so a child that detaches itself, as one
    that is destroyed does, calls [remove] on the container. *)
Class Children (C : Type) : Type := {
  childCall : LifecycleCall -> JS.M (Lifecycle C) unit
}.

(** A bare [ComponentContainer] holds no child for a call to reach. *)
#[export] Instance NoChildren : Children unit :=
  {| childCall := fun _ => JS.ret tt |}.

Section Methods.
Context {C : Type} `{Iteration C} `{Children C}.

Definition record (c : LifecycleCall) : JS.M (Lifecycle C) unit :=
  JS.modify (fun s => mkLifecycle (members s) (lifecycle_calls s ++ [c])).

(** A call of a child's method: the call, then whatever the child does to
    the container in it. *)
Definition call_child (c : LifecycleCall) : JS.M (Lifecycle C) unit :=
  do! record c in
  childCall c.

(** [this._forEach((c) => callback(c))] *)
Definition forEachChild (callback : Component -> JS.M (Lifecycle C) unit)
  : JS.M (Lifecycle C) unit :=
  let! s := JS.get in
  match _forEach (members s) with
  | JS.Return cs => JS.forEach (fun c _ => callback c) cs
  | JS.Throw msg => JS.throw msg
  end.

(** [anchor(selection)] *)
Definition anchor : JS.M (Lifecycle C) unit :=
  do! record SuperAnchor in
  forEachChild (fun c => call_child (ChildAnchor c)).

(** [render()] *)
Definition render : JS.M (Lifecycle C) unit :=
  forEachChild (fun c => call_child (ChildRender c)).

(** [destroy()] *)
Definition destroy : JS.M (Lifecycle C) unit :=
  do! record SuperDestroy in
  forEachChild (fun c => call_child (ChildDestroy c)).

(** [invalidateCache()] *)
Definition invalidateCache : JS.M (Lifecycle C) unit :=
  forEachChild (fun c => call_child (ChildInvalidateCache c)).

End Methods.

End ContainerLifecycle.

(** ** More vocabulary and inputs *)

Module OverlapSpec.

(** The elements of [l] at the positions [p] with [i + p] a multiple of
    [n]. *)
Fixpoint every_nth {A} (n i : nat) (l : list A) : list A :=
  match l with
  | [] => []
  | x :: rest =>
      if (i mod n =? 0)%nat then x :: every_nth n (S i) rest
      else every_nth n (S i) rest
  end.

End OverlapSpec.

Module EndLabelsSpec.
Import NumericAxis.

(** A label as one test of [_hideEndTickLabels] leaves it: hidden when its
    rect is not inside the bounding box. *)
Definition mark (clientRectInside : ClientRect -> ClientRect -> bool)
    (boundingBox : ClientRect) (label : TickLabel) : TickLabel :=
  if clientRectInside (label_rect label) boundingBox then label
  else hide label.

End EndLabelsSpec.

Module MoreExamples.
Import NumericAxis AxisExamples.

(** Two visible labels far apart. *)
Definition apart_axis : Numeric :=
  axis_with 2
    [ mkTickLabel (span 0 10 0 10) "inherit";
      mkTickLabel (span 40 50 0 10) "inherit" ].

(** One visible label of no width, on an axis without label padding. *)
Definition sliver_axis : Numeric :=
  axis_with 0 [ mkTickLabel (span 5 5 0 10) "inherit" ].

(** The same scale with its domain given in the two orders. *)
Definition ascending_axis : Numeric :=
  mkNumeric "center" false (mkScale (2%Q, 8%Q) [0; 2; 5; 8; 10]%Q)
    OrientBottom true (fun _ => "") 2%Q 5%Q 400%Q 15%Q
    (fun _ => mkDimensions 0 0) [] [].
Definition descending_axis : Numeric :=
  mkNumeric "center" false (mkScale (8%Q, 2%Q) [0; 2; 5; 8; 10]%Q)
    OrientBottom true (fun _ => "") 2%Q 5%Q 400%Q 15%Q
    (fun _ => mkDimensions 0 0) [] [].

(** An axis as its constructor leaves it, before [_setup] has run. *)
Definition new_axis : Numeric :=
  mkNumeric "center" false (mkScale (0%Q, 10%Q) [0; 5; 10]%Q)
    OrientLeft false (fun _ => "") 10%Q 5%Q 0%Q 0%Q
    (fun _ => mkDimensions 0 0) [] [].

End MoreExamples.

Module MoreGridExamples.
Import GridPlot GridExamples.

(** A plot that holds two datasets, under the keys "a" and "b". *)
Definition two_dataset_world : @World nat unit unit :=
  mkWorld (mkGrid None ∅ ["a"; "b"] {["a" := [1; 2]; "b" := [3]]} ∅ ∅)
    two_scales [].

End MoreGridExamples.

Module DrawerSpecMore.
Import RectangleDrawer.

Section Drawer.
Context {Datum : Type}.

(** The rectangle paths of the data alone, datum by datum from index [i]
    on. *)
Fixpoint paths_from (step : @AppliedDrawStep Datum) (i : nat)
    (data : list Datum) : list CanvasCall :=
  match data with
  | [] => []
  | point :: rest =>
      [BeginPath;
       Rect (attr (resolve step point i) "x") (attr (resolve step point i) "y")
            (attr (resolve step point i) "width")
            (attr (resolve step point i) "height")]
      ++ paths_from step (S i) rest
  end.

End Drawer.

End DrawerSpecMore.

Module MoreDrawerExamples.
Import RectangleDrawer DrawerExamples.

(** A step that strokes every datum in red, except the datum 0, whose
    stroke is a string that names no colour. *)
Definition stroked : @AppliedDrawStep nat :=
  mkStep
    [ ("x", fun d _ => JS.VNum (inject_Z (Z.of_nat d)));
      ("y", fun _ _ => JS.VNum 0);
      ("width", fun _ _ => JS.VNum 10); ("height", fun _ _ => JS.VNum 10);
      ("stroke", fun d _ => match d with
                            | O => JS.VStr "no colour"
                            | _ => JS.VStr "red"
                            end) ].

(** A step whose stroke is the empty string and whose fill is the
    number 0. *)
Definition unpainted : @AppliedDrawStep nat :=
  mkStep
    [ ("x", fun d _ => JS.VNum (inject_Z (Z.of_nat d)));
      ("stroke", fun _ _ => JS.VStr ""); ("fill", fun _ _ => JS.VNum 0) ].

End MoreDrawerExamples.

(* ================================================================== *)
(** * Part II.  Properties *)
(* ================================================================== *)

(** ** Comparisons of numbers *)

Lemma JS_lt_iff x y : JS.lt x y = true <-> (x < y)%Q.
Proof.
  unfold JS.lt. rewrite negb_true_iff, <- not_true_iff_false, Qle_bool_iff.
  split; [apply Qnot_le_lt | apply Qlt_not_le].
Qed.

Lemma JS_gt_iff x y : JS.gt x y = true <-> (y < x)%Q.
Proof. apply JS_lt_iff. Qed.

Lemma JS_le_iff x y : JS.le x y = true <-> (x <= y)%Q.
Proof. apply Qle_bool_iff. Qed.

Lemma JS_ge_iff x y : JS.ge x y = true <-> (y <= x)%Q.
Proof. apply Qle_bool_iff. Qed.

(** The smaller and the larger bound that [_getTickValues] computes are the
    minimum and the maximum of the two bounds of the domain. *)
Lemma domain_min x y : (if JS.le x y then x else y) = Qmin x y.
Proof.
  unfold JS.le, Qle_bool, Qmin, GenericMinMax.gmin, Qcompare, Qle, Z.leb.
  simpl. destruct (_ ?= _)%Z; reflexivity.
Qed.

Lemma domain_max x y : (if JS.ge x y then x else y) = Qmax x y.
Proof.
  unfold JS.ge, Qle_bool, Qmax, GenericMinMax.gmax, Qcompare, Z.leb.
  simpl. rewrite (Z.compare_antisym (Qnum x * QDen y) (Qnum y * QDen x)).
  destruct (_ ?= _)%Z; reflexivity.
Qed.

(** ** Iteration *)

(** [forEach] visits the elements in the order of the array: iterating over
    [xs ++ ys] is iterating over [xs] and then over [ys], with the indices
    running on. *)
Lemma forEach_from_app {St A} (f : A -> nat -> JS.M St unit)
    (xs ys : list A) :
  forall i s,
    JS.forEach_from f i (xs ++ ys) s =
    JS.bind (JS.forEach_from f i xs)
      (fun _ => JS.forEach_from f (i + length xs) ys) s.
Proof.
  induction xs as [|x xs IH]; intros i s; simpl.
  - unfold JS.bind, JS.ret. by rewrite Nat.add_0_r.
  - unfold JS.bind in *. destruct (f x i s) as [[[]|msg] s']; [|reflexivity].
    rewrite IH. by replace (i + S (length xs)) with (S i + length xs) by lia.
Qed.

(** ** The numeric axis *)

Section NumericAxisFacts.
Import NumericAxis NumericAxisSpec AxisExamples.

Lemma filter_sublist {A} (f : A -> bool) (l : list A) :
  sublist (List.filter f l) l.
Proof.
  induction l as [|x l IH]; simpl; [constructor|].
  destruct (f x); by constructor.
Qed.

(** C7.  [_getTickValues] returns exactly the ticks of the scale that lie
    between the smaller and the larger bound of the domain, whichever order
    the domain gives them in: it is the filter of the scale's ticks by that
    condition, so a tick is returned if and only if it is a tick of the scale
    inside the interval, and the ticks returned keep the order (and the
    repetitions) the scale produced them in. *)
Theorem getTickValues_normalized_interval (a : Numeric) :
  let d0 := (scale_domain (_scale a)).1 in
  let d1 := (scale_domain (_scale a)).2 in
  let ticks := scale_ticks (_scale a) in
  _getTickValues a =
    List.filter (fun v => Qle_bool (Qmin d0 d1) v && Qle_bool v (Qmax d0 d1)) ticks
  /\ (forall v, In v (_getTickValues a) <->
                In v ticks /\ (Qmin d0 d1 <= v /\ v <= Qmax d0 d1)%Q)
  /\ sublist (_getTickValues a) ticks.
Proof.
  intros d0 d1 ticks.
  assert (Heq : _getTickValues a =
    List.filter (fun v => Qle_bool (Qmin d0 d1) v && Qle_bool v (Qmax d0 d1)) ticks).
  { unfold _getTickValues. cbv zeta. rewrite domain_min, domain_max. reflexivity. }
  split; [exact Heq|]. split.
  - intros v. rewrite Heq, filter_In, andb_true_iff, !Qle_bool_iff. reflexivity.
  - rewrite Heq. apply filter_sublist.
Qed.

(** C6.  Calling [tickLabelPosition] with a position that, lowercased, is not
    valid for the orientation of the axis throws an error whose message names
    the offending position and the kind of axis, and the axis is left exactly
    as it was: the stored positioning is not changed and no redraw is
    requested. *)
Theorem tickLabelPosition_invalid_throws (a : Numeric) (position : string) :
  validPosition (isHorizontal a) (JS.toLowerCase position) = false ->
  tickLabelPosition (Some position) a =
    (JS.Throw (invalidPositionMessage (isHorizontal a) (JS.toLowerCase position)), a).
Proof.
  intros Hinvalid. unfold tickLabelPosition, validPosition in *.
  unfold JS.bind, JS.gets, JS.throw, invalidPositionMessage.
  destruct (isHorizontal a); rewrite Hinvalid; reflexivity.
Qed.

Lemma tickLabelPosition_invalid_throws_witness :
  let a := mkNumeric "center" false (mkScale (0%Q, 1%Q) []) OrientBottom true
             (fun _ => "") 10 5 100 15 (fun _ => mkDimensions 0 0) [] [] in
  tickLabelPosition (Some "Top") a =
    (JS.Throw "top is not a valid tick label position for a horizontal NumericAxis", a).
Proof.
  intros a. apply (tickLabelPosition_invalid_throws a "Top"). reflexivity.
Defined.

(** A valid position is lowercased, stored, and a redraw is requested. *)
Lemma tickLabelPosition_valid_sets (a : Numeric) (position : string) :
  validPosition (isHorizontal a) (JS.toLowerCase position) = true ->
  tickLabelPosition (Some position) a =
    (JS.Return This,
     log CallRedraw (set_tickLabelPositioning (JS.toLowerCase position) a)).
Proof.
  intros Hvalid. unfold tickLabelPosition, validPosition in *.
  unfold JS.bind, JS.gets.
  destruct (isHorizontal a); rewrite Hvalid; reflexivity.
Qed.

(** *** Measuring leaves the axis as it is *)

Lemma add_calls_nil a : add_calls [] a = a.
Proof. destruct a. unfold add_calls. simpl. by rewrite app_nil_r. Qed.

Lemma add_calls_app cs1 cs2 a :
  add_calls cs2 (add_calls cs1 a) = add_calls (cs1 ++ cs2) a.
Proof. unfold add_calls. simpl. by rewrite app_assoc. Qed.

Lemma measuring_ret {A} (x : A) : measuring (JS.ret x).
Proof.
  intros a _. exists x, []. split; [|constructor].
  unfold JS.ret. by rewrite add_calls_nil.
Qed.

Lemma measuring_gets {A} (f : Numeric -> A) : measuring (JS.gets f).
Proof.
  intros a _. exists (f a), []. split; [|constructor].
  unfold JS.gets. by rewrite add_calls_nil.
Qed.

Lemma measuring_get : measuring JS.get.
Proof.
  intros a _. exists a, []. split; [|constructor].
  unfold JS.get. by rewrite add_calls_nil.
Qed.

Lemma measuring_bind {A B} (c : JS.M Numeric A) (k : A -> JS.M Numeric B) :
  measuring c -> (forall x, measuring (k x)) -> measuring (JS.bind c k).
Proof.
  intros Hc Hk a Hsetup. destruct (Hc a Hsetup) as (x & cs1 & Hx & Hcs1).
  destruct (Hk x (add_calls cs1 a) Hsetup) as (y & cs2 & Hy & Hcs2).
  exists y, (cs1 ++ cs2). split.
  - unfold JS.bind. rewrite Hx, Hy. by rewrite add_calls_app.
  - by apply Forall_app.
Qed.

Lemma measuring_measure text : measuring (measure text).
Proof.
  intros a Hsetup. exists (_measurer a text), [CallMeasure text]. split.
  - unfold measure, JS.bind, JS.gets. by rewrite Hsetup.
  - repeat constructor. by exists text.
Qed.

Lemma measuring_mapM_from {A B} (f : A -> nat -> JS.M Numeric B) xs :
  (forall x i, measuring (f x i)) -> forall i, measuring (JS.mapM_from f i xs).
Proof.
  intros Hf. induction xs as [|x xs IH]; intros i; simpl.
  - apply measuring_ret.
  - apply measuring_bind; [apply Hf|]. intros y.
    apply measuring_bind; [apply IH|]. intros ys. apply measuring_ret.
Qed.

Lemma measuring_mapM {A B} (f : A -> JS.M Numeric B) xs :
  (forall x, measuring (f x)) -> measuring (JS.mapM f xs).
Proof. intros Hf. apply measuring_mapM_from. intros x _. apply Hf. Qed.

Create HintDb measuring.
#[local] Hint Resolve measuring_ret measuring_gets measuring_get
  measuring_measure : measuring.

Lemma measuring_computeWidth : measuring _computeWidth.
Proof.
  unfold _computeWidth.
  apply measuring_bind; [auto with measuring|]. intros approx.
  apply measuring_bind.
  - destruct approx.
    + unfold _computeApproximateTextWidth.
      apply measuring_bind; [auto with measuring|]. intros tickValues.
      apply measuring_bind; [auto with measuring|]. intros m.
      apply measuring_bind; [|auto with measuring].
      apply measuring_mapM. intros v.
      apply measuring_bind; auto with measuring.
    + unfold _computeExactTextWidth.
      apply measuring_bind; [auto with measuring|]. intros tickValues.
      apply measuring_bind; [|auto with measuring].
      apply measuring_mapM. intros v.
      apply measuring_bind; [auto with measuring|]. intros fmt.
      apply measuring_bind; auto with measuring.
  - intros maxTextWidth. apply measuring_bind; [auto with measuring|].
    intros a. destruct (String.eqb _ _); auto with measuring.
Qed.

(** C8.  On an axis that is set up, [_rescale] of a horizontal axis only
    renders, without measuring anything.  On an axis that is not horizontal
    it recomputes the width, which only calls the measurer, and then requests
    a redraw if and only if the recomputed width is strictly above the current
    width or strictly below the current width minus the margin; otherwise it
    renders. *)
Theorem rescale_redraws_iff_width_changed (a : Numeric) :
  _isSetup a = true ->
  (isHorizontal a = true -> _rescale a = (JS.Return tt, log CallRender a))
  /\ (isHorizontal a = false ->
      exists reComputedWidth measures (redrawn : bool),
        Forall is_measure measures
        /\ _computeWidth a = (JS.Return reComputedWidth, add_calls measures a)
        /\ _rescale a =
             (JS.Return tt,
              log (if redrawn then CallRedraw else CallRender)
                  (add_calls measures a))
        /\ (redrawn = true <->
            (width a < reComputedWidth
             \/ reComputedWidth < width a - margin a)%Q)).
Proof.
  intros Hsetup. unfold _rescale, JS.bind, JS.gets. rewrite Hsetup. simpl.
  split; intros Hh; rewrite Hh; simpl; [reflexivity|].
  destruct (measuring_computeWidth a Hsetup) as (w & cs & Hw & Hcs).
  exists w, cs,
    (JS.gt w (width a) || JS.lt w (width a - margin a)).
  rewrite Hw. unfold JS.get. simpl.
  change (width (add_calls cs a)) with (width a).
  change (margin (add_calls cs a)) with (margin a).
  split; [exact Hcs|]. split; [reflexivity|]. split.
  - unfold width, margin.
    destruct (JS.gt w (_width a) || JS.lt w (_width a - _margin a));
      reflexivity.
  - rewrite orb_true_iff, JS_gt_iff, JS_lt_iff. reflexivity.
Qed.

Lemma rescale_redraws_iff_width_changed_witness :
  (isHorizontal rescale_example = true ->
   _rescale rescale_example = (JS.Return tt, log CallRender rescale_example))
  /\ (isHorizontal rescale_example = false ->
      exists reComputedWidth measures (redrawn : bool),
        Forall is_measure measures
        /\ _computeWidth rescale_example =
             (JS.Return reComputedWidth, add_calls measures rescale_example)
        /\ _rescale rescale_example =
             (JS.Return tt,
              log (if redrawn then CallRedraw else CallRender)
                  (add_calls measures rescale_example))
        /\ (redrawn = true <->
            (width rescale_example < reComputedWidth
             \/ reComputedWidth < width rescale_example - margin rescale_example)%Q)).
Proof. apply (rescale_redraws_iff_width_changed rescale_example). reflexivity. Defined.

(** Before the axis is set up, [_rescale] does nothing. *)
Lemma rescale_not_setup (a : Numeric) :
  _isSetup a = false -> _rescale a = (JS.Return tt, a).
Proof.
  intros Hsetup. unfold _rescale, JS.bind, JS.gets. by rewrite Hsetup.
Qed.

End NumericAxisFacts.

(** ** The overlap resolution of the numeric axis *)

Section OverlapFacts.
Import NumericAxis NumericAxisSpec.
Context `{UtilsDOM}.

Lemma lookup_map {A B} (f : A -> B) (l : list A) (i : nat) :
  List.map f l !! i = f <$> l !! i.
Proof.
  revert i. induction l as [|x l IH]; intros [|i]; simpl; auto.
Qed.

(** The [for] loop finishes when it has one round for every index it can
    still visit, and it answers [true] exactly when none of the pairs it
    visits overlaps. *)
Lemma hasOverlap_for_total (interval : nat) (rects : list ClientRect) :
  1 <= interval ->
  forall fuel i,
    1 <= fuel -> length rects < i + interval + fuel ->
    exists b, hasOverlap_for fuel interval rects i = Some b
              /\ (b = true <-> pairs_disjoint_from interval rects i).
Proof.
  intros Hk. induction fuel as [|fuel IH]; intros i Hfuel Hlen; [lia|].
  simpl. destruct (i <? length rects - interval)%nat eqn:Hcond.
  - apply Nat.ltb_lt in Hcond.
    destruct (lookup_lt_is_Some_2 rects i) as [c Hc]; [lia|].
    destruct (lookup_lt_is_Some_2 rects (i + interval)) as [n Hn]; [lia|].
    rewrite Hc, Hn.
    destruct (clientRectsOverlap c n) eqn:Hov.
    + exists false. split; [reflexivity|]. split; [discriminate|].
      intros Hall. specialize (Hall 0 c n). simpl in Hall.
      rewrite Nat.add_0_r in Hall. rewrite Hall in Hov; auto.
    + destruct (IH (i + interval)) as (b & Hb & Hiff); [lia|lia|].
      exists b. split; [exact Hb|]. rewrite Hiff. split.
      * intros Hall [|j] c' n' Hc' Hn'.
        -- simpl in Hc', Hn'. rewrite Nat.add_0_r in Hc', Hn'. congruence.
        -- apply (Hall j c' n').
           ++ rewrite <- Hc'. f_equal. simpl. lia.
           ++ rewrite <- Hn'. f_equal. simpl. lia.
      * intros Hall j c' n' Hc' Hn'. apply (Hall (S j) c' n').
        -- rewrite <- Hc'. f_equal. simpl. lia.
        -- rewrite <- Hn'. f_equal. simpl. lia.
  - apply Nat.ltb_ge in Hcond. exists true. split; [reflexivity|].
    split; [|reflexivity]. intros _ j c n _ Hn.
    apply lookup_lt_Some in Hn. lia.
Qed.

(** Read on the rects before the padding, the pairs the loop visits from
    index 0 are the neighbours among the multiples of the interval. *)
Lemma pairs_disjoint_kept (a : Numeric) (rects : list ClientRect) interval :
  pairs_disjoint_from interval
    (List.map (fun rect => expandRect rect (padding a)) rects) 0
  <-> kept_disjoint a rects interval.
Proof.
  unfold pairs_disjoint_from, kept_disjoint, overlapping. split.
  - intros Hall j (ri & rj & Hi & Hj & Hov).
    rewrite (Hall j (expandRect ri (padding a)) (expandRect rj (padding a)))
      in Hov; [discriminate| |].
    + rewrite lookup_map. simpl. by rewrite Hi.
    + rewrite lookup_map. simpl. by rewrite Hj.
  - intros Hall j c n Hc Hn. rewrite lookup_map in Hc, Hn. simpl in Hc, Hn.
    destruct (rects !! (j * interval)) as [ri|] eqn:Hi; [|discriminate].
    destruct (rects !! (j * interval + interval)) as [rj|] eqn:Hj;
      [|discriminate].
    simpl in Hc, Hn. injection Hc as <-. injection Hn as <-.
    apply not_true_is_false. intros Hov. apply (Hall j). eauto.
Qed.

Lemma hasOverlapWithInterval_total (a : Numeric) (rects : list ClientRect)
    (fuel interval : nat) :
  1 <= interval -> 1 <= fuel -> length rects < interval + fuel ->
  exists b, _hasOverlapWithInterval fuel a interval rects = Some b
            /\ (b = true <-> kept_disjoint a rects interval).
Proof.
  intros Hk Hfuel Hlen. unfold _hasOverlapWithInterval.
  destruct (hasOverlap_for_total interval
              (List.map (fun rect => expandRect rect (padding a)) rects) Hk
              fuel 0 Hfuel) as (b & Hb & Hiff).
  { rewrite length_map. lia. }
  exists b. split; [exact Hb|]. by rewrite Hiff, pairs_disjoint_kept.
Qed.

(** Past the last rect there is no pair left to test. *)
Lemma kept_disjoint_beyond (a : Numeric) (rects : list ClientRect) interval :
  length rects <= interval -> kept_disjoint a rects interval.
Proof.
  intros Hlen j (ri & rj & _ & Hj & _). apply lookup_lt_Some in Hj. lia.
Qed.

(** The [while] loop finishes, at the first interval from [interval] on whose
    test succeeds, and no later than at the number of rects. *)
Lemma interval_while_total (a : Numeric) (rects : list ClientRect) :
  forall fuel interval,
    1 <= interval -> 1 <= fuel -> length rects < interval + fuel ->
    exists result,
      interval_while fuel a rects interval = Some result
      /\ interval <= result <= Nat.max interval (length rects)
      /\ kept_disjoint a rects result
      /\ (forall k, interval <= k < result -> ~ kept_disjoint a rects k).
Proof.
  induction fuel as [|fuel IH]; intros interval Hk Hfuel Hlen; [lia|].
  cbn [interval_while].
  destruct (hasOverlapWithInterval_total a rects (S fuel) interval)
    as (b & Hb & Hiff); [lia..|].
  rewrite Hb.
  destruct (negb b && (interval <? length rects)%nat) eqn:Hcond.
  - apply andb_true_iff in Hcond as [Hnb Hlt].
    apply negb_true_iff in Hnb. apply Nat.ltb_lt in Hlt. subst b.
    destruct (IH (interval + 1)) as (r & Hr & Hbounds & Hacc & Hmin);
      [lia..|].
    exists r. split; [exact Hr|]. split; [lia|]. split; [exact Hacc|].
    intros k Hk'. destruct (decide (k = interval)) as [->|Hne].
    + rewrite <- Hiff. discriminate.
    + apply Hmin. lia.
  - exists interval. split; [reflexivity|]. split; [lia|]. split; [|lia].
    apply andb_false_iff in Hcond as [Hnb|Hge].
    + apply Hiff. by destruct b.
    + apply Nat.ltb_ge in Hge. by apply kept_disjoint_beyond.
Qed.

Lemma rank_cons (label : TickLabel) (labels : list TickLabel) (p : nat) :
  rank (label :: labels) (S p) =
    (if isVisible label then 1 else 0) + rank labels p.
Proof. unfold rank. simpl. by destruct (isVisible label). Qed.

(** What [each] leaves at every position: a visible label whose position
    among the visible ones is not a multiple of the interval is hidden, every
    other label is untouched. *)
Lemma hide_each_lookup (interval : nat) (labels : list TickLabel) :
  forall i p label,
    labels !! p = Some label ->
    hide_each interval i labels !! p =
      Some (if isVisible label
               && negb ((i + rank labels p) mod interval =? 0)%nat
            then hide label else label).
Proof.
  induction labels as [|l labels IH]; intros i [|p] label Hp;
    try discriminate.
  - injection Hp as ->. unfold rank. simpl. rewrite Nat.add_0_r.
    by destruct (isVisible label).
  - simpl in Hp. rewrite rank_cons. simpl.
    destruct (isVisible l); simpl; rewrite (IH _ p label Hp).
    + by replace (i + S (rank labels p)) with (S i + rank labels p) by lia.
    + reflexivity.
Qed.

Lemma hide_each_length (interval : nat) (labels : list TickLabel) :
  forall i, length (hide_each interval i labels) = length labels.
Proof.
  induction labels as [|l labels IH]; intros i; simpl; [reflexivity|].
  destruct (isVisible l); simpl; by rewrite IH.
Qed.

Lemma hide_not_visible (label : TickLabel) : isVisible (hide label) = false.
Proof. reflexivity. Qed.

Lemma visibleRects_length (a : Numeric) :
  length (visibleRects a) <= length (_tickLabels a).
Proof. unfold visibleRects. rewrite length_map. apply filter_length_le. Qed.

(** C1, as the code has it.  With one round of fuel more than there are
    labels, the overlap resolution finishes.  Let [rects] be the rects of the
    visible labels in tick order, each expanded by the padding (the tick-label
    padding in "center" mode, three times it otherwise).  The interval it
    settles on is the first one, counting up from 1, at which no two
    neighbours among the rects at positions 0, interval, 2 * interval, ...
    overlap; it is at most the number of rects, or 1 when there is none.
    Afterwards a visible label stays as it was when its position among the
    visible labels is a multiple of the interval and is hidden otherwise;
    labels that were not visible are untouched. *)
Theorem hideOverlappingTickLabels_interval (a : Numeric) (fuel : nat) :
  length (_tickLabels a) < fuel ->
  exists interval labels',
    interval_while fuel a (visibleRects a) 1 = Some interval
    /\ _hideOverlappingTickLabels fuel a = Some (set_tickLabels labels' a)
    /\ 1 <= interval <= Nat.max 1 (length (visibleRects a))
    /\ kept_disjoint a (visibleRects a) interval
    /\ (forall k, 1 <= k < interval -> ~ kept_disjoint a (visibleRects a) k)
    /\ length labels' = length (_tickLabels a)
    /\ (forall p label,
          _tickLabels a !! p = Some label ->
          labels' !! p =
            Some (if isVisible label
                     && negb (rank (_tickLabels a) p mod interval =? 0)%nat
                  then hide label else label))
    /\ (forall p label',
          labels' !! p = Some label' ->
          isVisible label' = true <->
          exists label,
            _tickLabels a !! p = Some label /\ label' = label
            /\ isVisible label = true
            /\ rank (_tickLabels a) p mod interval = 0).
Proof.
  intros Hfuel. pose proof (visibleRects_length a) as Hlen.
  destruct (interval_while_total a (visibleRects a) fuel 1)
    as (interval & Hrun & Hbounds & Hacc & Hmin); [lia..|].
  assert (Hlookup : forall p label,
    _tickLabels a !! p = Some label ->
    hide_each interval 0 (_tickLabels a) !! p =
      Some (if isVisible label
               && negb (rank (_tickLabels a) p mod interval =? 0)%nat
            then hide label else label)).
  { intros p label Hp. by rewrite (hide_each_lookup _ _ 0 p label Hp). }
  exists interval, (hide_each interval 0 (_tickLabels a)).
  split; [exact Hrun|]. split.
  { unfold _hideOverlappingTickLabels. fold (visibleRects a). by rewrite Hrun. }
  split; [exact Hbounds|]. split; [exact Hacc|]. split; [exact Hmin|].
  split; [apply hide_each_length|]. split; [exact Hlookup|].
  intros p label' Hp'.
  destruct (_tickLabels a !! p) as [label|] eqn:Hp.
  - rewrite (Hlookup p label Hp) in Hp'. injection Hp' as <-.
    destruct (isVisible label) eqn:Hvis; simpl.
    + destruct (rank (_tickLabels a) p mod interval =? 0)%nat eqn:Hmod; simpl.
      * apply Nat.eqb_eq in Hmod. split; [|by rewrite Hvis].
        intros _. exists label. by rewrite Hvis.
      * apply Nat.eqb_neq in Hmod. rewrite hide_not_visible. split.
        -- discriminate.
        -- intros (l & Hl & _ & _ & Hzero). by injection Hl as <-.
    + rewrite Hvis. split; [discriminate|].
      intros (l & Hl & _ & Hv & _). injection Hl as <-. congruence.
  - apply lookup_lt_Some in Hp'. rewrite hide_each_length in Hp'.
    apply lookup_ge_None in Hp. lia.
Qed.

End OverlapFacts.

(** *** The overlap resolution on concrete labels *)

Section OverlapExamples.
Import NumericAxis NumericAxisSpec AxisExamples.
#[local] Existing Instance SpecDOM.utils.

Lemma clientRectsOverlap_model_iff (r1 r2 : ClientRect) :
  SpecDOM.clientRectsOverlap_model r1 r2 = true <->
  (rect_left r1 < rect_right r2 /\ rect_left r2 < rect_right r1
   /\ rect_top r1 < rect_bottom r2 /\ rect_top r2 < rect_bottom r1)%Q.
Proof.
  unfold SpecDOM.clientRectsOverlap_model.
  rewrite !andb_true_iff, !JS_lt_iff. tauto.
Qed.

Lemma hideOverlappingTickLabels_interval_witness :
  exists interval labels',
    interval_while 6 alternating_axis (visibleRects alternating_axis) 1
      = Some interval
    /\ _hideOverlappingTickLabels 6 alternating_axis
       = Some (set_tickLabels labels' alternating_axis)
    /\ 1 <= interval <= Nat.max 1 (length (visibleRects alternating_axis))
    /\ kept_disjoint alternating_axis (visibleRects alternating_axis) interval
    /\ (forall k, 1 <= k < interval ->
          ~ kept_disjoint alternating_axis (visibleRects alternating_axis) k)
    /\ length labels' = length (_tickLabels alternating_axis)
    /\ (forall p label,
          _tickLabels alternating_axis !! p = Some label ->
          labels' !! p =
            Some (if isVisible label
                     && negb (rank (_tickLabels alternating_axis) p
                              mod interval =? 0)%nat
                  then hide label else label))
    /\ (forall p label',
          labels' !! p = Some label' ->
          isVisible label' = true <->
          exists label,
            _tickLabels alternating_axis !! p = Some label /\ label' = label
            /\ isVisible label = true
            /\ rank (_tickLabels alternating_axis) p mod interval = 0).
Proof.
  apply (hideOverlappingTickLabels_interval alternating_axis 6).
  simpl. lia.
Defined.

(** C1, as the spec words it, does not hold.  On five labels that are short
    and long in turn, the code settles on interval 2, which is less than the
    number of rects, although the second and the fourth rect, which are 2
    apart, overlap: they are not among the pairs the code tests. *)
Lemma overlap_search_not_as_specified :
  exists interval,
    interval_while 6 alternating_axis (visibleRects alternating_axis) 1
      = Some interval
    /\ ~ accepted_as_specified alternating_axis interval.
Proof.
  exists 2. split; [vm_compute; reflexivity|]. intros [Hall|Hlen].
  - apply (Hall 1).
    exists (span (-20) 80 0 10), (span 40 140 0 10).
    split; [reflexivity|]. split; [reflexivity|]. vm_compute. reflexivity.
  - vm_compute in Hlen. discriminate.
Qed.

Lemma spans_visibleRects (a : Numeric) (t b : Q) :
  _tickLabels a = spans_labels t b ->
  visibleRects a =
    [span 0 10 t b; span 8 18 t b; span 20 30 t b; span 40 50 t b].
Proof. intros Hlabels. unfold visibleRects. by rewrite Hlabels. Qed.

Lemma spans_first_pair_overlaps (a : Numeric) (t b : Q) :
  (padding a == 2)%Q -> (t <= b)%Q -> _tickLabels a = spans_labels t b ->
  overlapping a (visibleRects a) 0 1.
Proof.
  intros Hpad Htb Hlabels. rewrite (spans_visibleRects a t b Hlabels).
  exists (span 0 10 t b), (span 8 18 t b).
  split; [reflexivity|]. split; [reflexivity|].
  apply clientRectsOverlap_model_iff. simpl. lra.
Qed.

Lemma spans_kept_disjoint_at_two (a : Numeric) (t b : Q) :
  (padding a == 2)%Q -> _tickLabels a = spans_labels t b ->
  kept_disjoint a (visibleRects a) 2.
Proof.
  intros Hpad Hlabels. rewrite (spans_visibleRects a t b Hlabels).
  intros [|j] (ri & rj & Hi & Hj & Hov).
  - injection Hi as <-. injection Hj as <-.
    apply clientRectsOverlap_model_iff in Hov. simpl in Hov. lra.
  - apply lookup_lt_Some in Hj. simpl in Hj. lia.
Qed.

(** C2.  Take four visible labels spanning [0,10], [8,18], [20,30] and
    [40,50] in tick order, all of one vertical extent, on an axis whose
    padding for the overlap test is 2.  With more fuel than there are labels,
    the search settles on interval 2: at interval 1 the first two rects
    overlap once expanded, at interval 2 no tested pair does.  The labels at
    indices 1 and 3 are hidden, and the labels left visible are exactly those
    at indices 0 and 2. *)
Theorem overlap_example_selects_two (a : Numeric) (t b : Q) (fuel : nat) :
  (padding a == 2)%Q -> (t <= b)%Q -> _tickLabels a = spans_labels t b ->
  4 < fuel ->
  interval_while fuel a (visibleRects a) 1 = Some 2
  /\ overlapping a (visibleRects a) 0 1
  /\ kept_disjoint a (visibleRects a) 2
  /\ _hideOverlappingTickLabels fuel a =
       Some (set_tickLabels
               [ mkTickLabel (span 0 10 t b) "inherit";
                 mkTickLabel (span 8 18 t b) "hidden";
                 mkTickLabel (span 20 30 t b) "inherit";
                 mkTickLabel (span 40 50 t b) "hidden" ] a)
  /\ (forall a' p label',
        _hideOverlappingTickLabels fuel a = Some a' ->
        _tickLabels a' !! p = Some label' ->
        isVisible label' = true <-> p = 0 \/ p = 2).
Proof.
  intros Hpad Htb Hlabels Hfuel.
  pose proof (spans_first_pair_overlaps a t b Hpad Htb Hlabels) as Hfirst.
  pose proof (spans_kept_disjoint_at_two a t b Hpad Hlabels) as Hkept.
  assert (Hrun : interval_while fuel a (visibleRects a) 1 = Some 2).
  { destruct (interval_while_total a (visibleRects a) fuel 1)
      as (r & Hr & Hbounds & Hacc & Hmin).
    - lia.
    - lia.
    - rewrite (spans_visibleRects a t b Hlabels). simpl. lia.
    - rewrite Hr. f_equal.
      destruct (decide (r = 1)) as [->|Hne1]; [by destruct (Hacc 0)|].
      destruct (decide (r = 2)) as [->|Hne2]; [reflexivity|].
      destruct (Hmin 2); [lia|exact Hkept]. }
  assert (Hhide : _hideOverlappingTickLabels fuel a =
       Some (set_tickLabels
               [ mkTickLabel (span 0 10 t b) "inherit";
                 mkTickLabel (span 8 18 t b) "hidden";
                 mkTickLabel (span 20 30 t b) "inherit";
                 mkTickLabel (span 40 50 t b) "hidden" ] a)).
  { unfold _hideOverlappingTickLabels. fold (visibleRects a).
    rewrite Hrun, Hlabels. reflexivity. }
  split; [exact Hrun|]. split; [exact Hfirst|]. split; [exact Hkept|].
  split; [exact Hhide|].
  intros a' p label' Ha' Hp. rewrite Hhide in Ha'. injection Ha' as <-.
  simpl in Hp.
  destruct p as [|[|[|[|p]]]]; simpl in Hp; try discriminate;
    injection Hp as <-; vm_compute; split; intros Hx;
      try discriminate; try lia; auto;
      destruct Hx as [Hx|Hx]; discriminate.
Qed.

Lemma overlap_example_selects_two_witness :
  let a := axis_with 2 (spans_labels 0 10) in
  interval_while 5 a (visibleRects a) 1 = Some 2
  /\ overlapping a (visibleRects a) 0 1
  /\ kept_disjoint a (visibleRects a) 2
  /\ _hideOverlappingTickLabels 5 a =
       Some (set_tickLabels
               [ mkTickLabel (span 0 10 0 10) "inherit";
                 mkTickLabel (span 8 18 0 10) "hidden";
                 mkTickLabel (span 20 30 0 10) "inherit";
                 mkTickLabel (span 40 50 0 10) "hidden" ] a)
  /\ (forall a' p label',
        _hideOverlappingTickLabels 5 a = Some a' ->
        _tickLabels a' !! p = Some label' ->
        isVisible label' = true <-> p = 0 \/ p = 2).
Proof.
  intros a.
  apply (overlap_example_selects_two a 0 10 5);
    [reflexivity | unfold Qle; simpl; lia | reflexivity | lia].
Defined.

End OverlapExamples.

(** ** The component container *)

Section ContainerFacts.
Import Container ContainerSpec ContainerExamples.

(** When [has] throws, so does [remove], before it has done anything. *)
Lemma remove_has_throws {C} `{Variant C} (s : ComponentContainer C)
    (x : Component) (msg : string) :
  has x (children s) = JS.Throw msg -> remove x s = (JS.Throw msg, s).
Proof.
  intros Hhas. unfold remove, JS.bind, call_has. by rewrite Hhas.
Qed.

Lemma remove_member {C} `{Variant C} (s : ComponentContainer C)
    (x : Component) :
  has x (children s) = JS.Return true ->
  remove x s =
    (JS.Return tt,
     mkContainer (_remove x (children s)).2 (calls s ++ removal_calls x)).
Proof.
  intros Hhas.
  unfold remove, JS.bind, call_has, call_remove, JS.modify, log.
  rewrite Hhas. simpl. unfold removal_calls. by rewrite <- !app_assoc.
Qed.

Lemma remove_non_member {C} `{Variant C} (s : ComponentContainer C)
    (x : Component) :
  has x (children s) = JS.Return false -> remove x s = (JS.Return tt, s).
Proof.
  intros Hhas. unfold remove, JS.bind, call_has. by rewrite Hhas.
Qed.





End ContainerFacts.

(** ** The grid plot *)

Section GridFacts.
Import GridPlot GridPlotSpec GridExamples.
Context {Datum UserMetadata PlotMetadata : Type}.
Context {inherited : @Inherited Datum UserMetadata PlotMetadata}.
Abbreviation World := (@World Datum UserMetadata PlotMetadata).
Abbreviation KeyOrDataset := (@KeyOrDataset Datum).
Abbreviation AccessorFn := (@AccessorFn Datum UserMetadata PlotMetadata).

(** C4.  On a plot that already holds one dataset, [addDataset] writes the
    warning and returns normally without calling the inherited [addDataset]:
    the plot, with its dataset keys and its stored datasets, and the scales
    are exactly as before, and the only trace is the warning. *)
Theorem addDataset_second_rejected (w : World) (keyOrDataset : KeyOrDataset)
    (dataset : option (list Datum)) :
  length (_datasetKeysInOrder (plot w)) = 1 ->
  exists w',
    addDataset keyOrDataset dataset w = (JS.Return tt, w')
    /\ plot w' = plot w
    /\ scales w' = scales w
    /\ warnings w' =
         warnings w ++ ["Only one dataset is supported in Grid plots"].
Proof.
  intros Hone. exists (warned w). split; [|done].
  unfold addDataset, JS.bind, JS.get. by rewrite Hone.
Qed.

(** With no dataset yet, the call is handed to the inherited method. *)
Lemma addDataset_first_accepted (w : World) (keyOrDataset : KeyOrDataset)
    (dataset : option (list Datum)) :
  _datasetKeysInOrder (plot w) = [] ->
  addDataset keyOrDataset dataset w =
    JS.bind (super_addDataset keyOrDataset dataset) (fun _ => JS.ret tt) w.
Proof.
  intros Hnone. unfold addDataset at 1, JS.bind at 1, JS.get.
  by rewrite Hnone.
Qed.

(** *** The constructor *)

Lemma zero_padding_twice (c : Category) :
  outerPadding 0 (innerPadding 0 c) = zero_padding c.
Proof. reflexivity. Qed.

(** The two setter calls on a scale, guarded by the [instanceof] test. *)
Lemma zero_paddings_run (r : ScaleRef) (w : World) :
  when (instanceofCategory w (Some r))
    (JS.bind (onCategory r (innerPadding 0))
       (fun _ => onCategory r (outerPadding 0))) w
  = (JS.Return tt, set_scales (zero_at r (scales w)) w).
Proof.
  unfold when, instanceofCategory, zero_at, onCategory, JS.bind, JS.get,
    JS.modify, JS.ret.
  destruct (scales w !! r) as [[c|q|o]|] eqn:Hr; simpl;
    try (destruct w; simpl in *; reflexivity).
  rewrite Hr. simpl. rewrite lookup_insert_eq. simpl.
  rewrite insert_insert_eq. by destruct w.
Qed.

Lemma zero_at_lookup (r r' : ScaleRef) (h : gmap ScaleRef Scale) :
  zero_at r h !! r' =
    match h !! r' with
    | Some (ScaleCategory c) =>
        if decide (r' = r) then Some (ScaleCategory (zero_padding c))
        else Some (ScaleCategory c)
    | other => other
    end.
Proof.
  unfold zero_at. destruct (decide (r' = r)) as [->|Hne].
  - destruct (h !! r) as [[c|q|o]|] eqn:Hr;
      rewrite ?lookup_insert_eq, ?Hr; done.
  - destruct (h !! r) as [[c|q|o]|] eqn:Hr;
      rewrite ?lookup_insert_ne by done;
      destruct (h !! r') as [[c'|q'|o']|]; done.
Qed.

(** C10.  Once the inherited constructor has returned, the constructor of
    [Grid] changes the scale objects in exactly one way: the scale passed as
    [xScale] and the one passed as [yScale] have their inner and outer
    padding set to 0 when they are category scales, everything else of them
    staying as it was; scales of the other classes, and scales that were not
    passed, are left as they were. *)
Theorem constructor_zeroes_category_padding
    (xScale yScale colorScale : ScaleRef) (w0 w1 : World) :
  super_constructor xScale yScale w0 = (JS.Return tt, w1) ->
  exists w2,
    constructor xScale yScale colorScale w0 = (JS.Return tt, w2)
    /\ warnings w2 = warnings w1
    /\ forall r,
         scales w2 !! r =
           match scales w1 !! r with
           | Some (ScaleCategory c) =>
               if decide (r = xScale \/ r = yScale)
               then Some (ScaleCategory
                            (mkCategory 0 0 (layout_scale c) (layout_rangeBand c)))
               else Some (ScaleCategory c)
           | other => other
           end.
Proof.
  intros Hsuper. unfold constructor.
  unfold JS.bind at 1. rewrite Hsuper.
  unfold JS.bind at 1. unfold classed at 1, JS.modify at 1.
  unfold JS.bind at 1. unfold JS.get at 1.
  unfold JS.bind at 1. rewrite zero_paddings_run.
  unfold JS.bind at 1. unfold JS.get at 1.
  unfold JS.bind at 1. rewrite zero_paddings_run.
  unfold JS.bind, JS.modify, animator. simpl.
  eexists. split; [reflexivity|]. simpl. split; [reflexivity|].
  intros r. rewrite !zero_at_lookup.
  destruct (scales w1 !! r) as [[c|q|o]|]; try done.
  destruct (decide (r = xScale)) as [Hx|Hx];
    destruct (decide (r = yScale)) as [Hy|Hy]; simpl.
  - rewrite decide_True by auto. reflexivity.
  - rewrite decide_True by auto. reflexivity.
  - rewrite decide_True by auto. reflexivity.
  - rewrite decide_False by tauto. reflexivity.
Qed.

(** *** Projections *)

(** A nested call of [project] for an attribute other than "x", "y" and
    "fill" only stores the projection. *)
Lemma project_derived (depth : nat) (attr : string) (acc : Accessor)
    (w : World) :
  attr <> "x" -> attr <> "y" -> attr <> "fill" ->
  project (S depth) attr acc None w = super_project attr acc None w.
Proof.
  intros Hx Hy Hfill. cbn [project]. unfold project_body.
  apply String.eqb_neq in Hx, Hy, Hfill. rewrite Hx, Hy, Hfill.
  reflexivity.
Qed.

(** The world after ["x"] or ["y"] has been projected through a category
    scale: the projection itself and the two derived ones are stored. *)
Lemma project_category_run (depth : nat) (axis : string) (f : AccessorFn)
    (r : ScaleRef) (c : Category) (w : World) :
  axis = "x" \/ axis = "y" ->
  scales w !! r = Some (ScaleCategory c) ->
  project (S (S depth)) axis (UserAccessor f) (Some r) w =
    (JS.Return tt,
     set_plot
       (set_projections
          (<[String.append axis "2" := mkProjection (BandEnd axis r) None]>
             (<[String.append axis "1" := mkProjection (BandStart axis r) None]>
                (<[axis := mkProjection (UserAccessor f) (Some r)]>
                   (_projections (plot w)))))
          (plot w)) w).
Proof.
  intros Haxis Hr. cbn [project]. unfold project_body.
  destruct Haxis as [-> | ->]; simpl String.eqb; cbn [when];
    unfold JS.bind, super_project, JS.modify, JS.get, JS.ret,
      instanceofCategory, instanceofQuantitative;
    simpl; rewrite Hr; simpl; rewrite ?Hr; reflexivity.
Qed.

(** C3.  Projecting ["x"] (or ["y"]) with an accessor through a category
    scale returns normally, leaves the scales alone, and derives the
    projections ["x1"] and ["x2"] (["y1"] and ["y2"]): for every datum [d]
    and index [i] they evaluate to [scale(accessor(d, i))] minus and plus
    half of the scale's band width. *)
Theorem project_category_derives_band (w : World) (axis : string)
    (f : AccessorFn) (r : ScaleRef) (c : Category) (depth : nat) :
  axis = "x" \/ axis = "y" ->
  scales w !! r = Some (ScaleCategory c) ->
  2 <= depth ->
  exists w',
    project depth axis (UserAccessor f) (Some r) w = (JS.Return tt, w')
    /\ scales w' = scales w
    /\ forall calls d i u m,
         2 <= calls ->
         projected calls w' (String.append axis "1") d i u m =
           JS.Return (JS.VNum (Category_scale c (f d i u m) - rangeBand c / 2))
         /\ projected calls w' (String.append axis "2") d i u m =
           JS.Return (JS.VNum (Category_scale c (f d i u m) + rangeBand c / 2)).
Proof.
  intros Haxis Hr Hdepth. destruct depth as [|[|depth]]; try lia.
  eexists. split; [by apply (project_category_run depth axis f r c w)|].
  split; [reflexivity|].
  intros [|[|calls]] d i u m Hcalls; try lia.
  unfold projected. cbn [plot set_plot _projections set_projections].
  destruct Haxis as [-> | ->]; cbn [String.append]; split;
    rewrite ?(lookup_insert_ne _ "x2" "x1"), ?(lookup_insert_ne _ "y2" "y1")
      by done;
    rewrite lookup_insert_eq;
    cbn [callAccessor accessor plot set_plot _projections set_projections
         scales];
    rewrite ?(lookup_insert_ne _ "x2" "x"), ?(lookup_insert_ne _ "x1" "x"),
      ?(lookup_insert_ne _ "y2" "y"), ?(lookup_insert_ne _ "y1" "y") by done;
    rewrite lookup_insert_eq, Hr; done.
Qed.

End GridFacts.

Section GridExampleFacts.
Import GridPlot GridPlotSpec GridExamples.

Lemma addDataset_second_rejected_witness :
  exists w',
    addDataset (H := idle_super) (Data [4; 5]) None one_dataset_world
      = (JS.Return tt, w')
    /\ plot w' = plot one_dataset_world
    /\ scales w' = scales one_dataset_world
    /\ warnings w' =
         warnings one_dataset_world
         ++ ["Only one dataset is supported in Grid plots"].
Proof.
  apply (addDataset_second_rejected (inherited := idle_super)
           one_dataset_world (Data [4; 5]) None).
  reflexivity.
Defined.

Lemma constructor_zeroes_category_padding_witness :
  exists w2,
    constructor (H := idle_super) 0 1 1 empty_world = (JS.Return tt, w2)
    /\ warnings w2 = warnings empty_world
    /\ forall r,
         scales w2 !! r =
           match scales empty_world !! r with
           | Some (ScaleCategory c) =>
               if decide (r = 0 \/ r = 1)
               then Some (ScaleCategory
                            (mkCategory 0 0 (layout_scale c) (layout_rangeBand c)))
               else Some (ScaleCategory c)
           | other => other
           end.
Proof.
  apply (constructor_zeroes_category_padding (inherited := idle_super)
           0 1 1 empty_world empty_world).
  reflexivity.
Defined.

Lemma project_category_derives_band_witness :
  exists w',
    project 2 "x" (UserAccessor self_accessor) (Some 0) empty_world
      = (JS.Return tt, w')
    /\ scales w' = scales empty_world
    /\ forall calls d i u m,
         2 <= calls ->
         projected calls w' (String.append "x" "1") d i u m =
           JS.Return (JS.VNum (Category_scale bands (self_accessor d i u m)
                               - rangeBand bands / 2))
         /\ projected calls w' (String.append "x" "2") d i u m =
           JS.Return (JS.VNum (Category_scale bands (self_accessor d i u m)
                               + rangeBand bands / 2)).
Proof.
  apply (project_category_derives_band empty_world "x" self_accessor 0 bands 2);
    [left; reflexivity | reflexivity | lia].
Defined.

End GridExampleFacts.

(** ** The rectangle drawer *)

Section DrawerFacts.
Import RectangleDrawer DrawerSpec DrawerExamples.
Context {Datum : Type} `{D3}.

(** Painting in the code agrees with [paint] as long as the opacity is
    absent or truthy. *)
Lemma drawPoint_as_specified (step : @AppliedDrawStep Datum) (point : Datum)
    (index : nat) (ctx : Context) :
  let resolvedAttrs := resolve step point index in
  colour_or_absent (attr resolvedAttrs "stroke") ->
  colour_or_absent (attr resolvedAttrs "fill") ->
  opacity_seen_or_absent (attr resolvedAttrs "opacity") ->
  exists ctx',
    drawPoint step point index ctx = (JS.Return tt, ctx')
    /\ drawn ctx' = drawn ctx ++ specified_calls resolvedAttrs.
Proof.
  intros ra Hstroke Hfill Hopacity. unfold drawPoint. fold ra.
  unfold specified_calls.
  assert (Hwith : forall c,
    (if JS.truthy (attr ra "opacity")
     then set_opacity (attr ra "opacity") c else c)
    = with_opacity (attr ra "opacity") c).
  { intros c. destruct Hopacity as [-> | [-> | Ht]]; [done..|].
    rewrite Ht. by destruct (attr ra "opacity"). }
  assert (Hpaint : forall v, colour_or_absent v ->
    (JS.truthy v = false /\ paint v (attr ra "opacity") = None)
    \/ exists c, JS.truthy v = true /\ color v = Some c
                 /\ paint v (attr ra "opacity")
                    = Some (rgb_toString (with_opacity (attr ra "opacity") c))).
  { intros v [-> | [-> | [Ht [c Hc]]]]; [by left..|].
    right. exists c. split; [done|]. split; [done|].
    unfold paint. rewrite Hc. by destruct v. }
  unfold JS.bind, beginPath, rect, draw, when, stroke, fill,
    set_strokeStyle, set_fillStyle, JS.modify, JS.get, JS.ret.
  destruct (Hpaint _ Hstroke) as [[-> ->] | (sc & -> & -> & ->)];
    destruct (Hpaint _ Hfill) as [[-> ->] | (fc & -> & -> & ->)];
    rewrite ?Hwith; simpl;
    (eexists; split; [reflexivity|]); simpl; by rewrite <- ?app_assoc.
Qed.

(** The whole array is drawn datum by datum, in the order of the array. *)
Lemma canvasDraw_as_specified (step : @AppliedDrawStep Datum)
    (data : list Datum) :
  forall (i : nat) (ctx : Context),
    (forall k point,
       data !! k = Some point ->
       let resolvedAttrs := resolve step point (i + k) in
       colour_or_absent (attr resolvedAttrs "stroke")
       /\ colour_or_absent (attr resolvedAttrs "fill")
       /\ opacity_seen_or_absent (attr resolvedAttrs "opacity")) ->
    exists ctx',
      JS.forEach_from (drawPoint step) i data ctx = (JS.Return tt, ctx')
      /\ drawn ctx' = drawn ctx ++ specified_calls_from step i data.
Proof.
  induction data as [|point data IH]; intros i ctx Hok; simpl.
  - exists ctx. split; [reflexivity|]. by rewrite app_nil_r.
  - destruct (Hok 0 point eq_refl) as (Hs & Hf & Ho).
    rewrite Nat.add_0_r in Hs, Hf, Ho.
    destruct (drawPoint_as_specified step point i ctx Hs Hf Ho)
      as (ctx1 & Hrun1 & Hdrawn1).
    destruct (IH (S i) ctx1) as (ctx2 & Hrun2 & Hdrawn2).
    { intros k p Hk. specialize (Hok (S k) p Hk).
      by replace (S i + k) with (i + S k) by lia. }
    exists ctx2. unfold JS.bind. rewrite Hrun1, Hrun2.
    split; [reflexivity|]. by rewrite Hdrawn2, Hdrawn1, <- app_assoc.
Qed.

End DrawerFacts.

Section DrawerBug.
Import RectangleDrawer DrawerSpec DrawerExamples.
Context `{D3}.

(** What the step resolves to, whatever the datum and the index. *)
Lemma red_square_resolved (o : JS.value) (point index : nat) :
  let resolvedAttrs := resolve (red_square o) point index in
  attr resolvedAttrs "x" = JS.VNum 0
  /\ attr resolvedAttrs "y" = JS.VNum 0
  /\ attr resolvedAttrs "width" = JS.VNum 10
  /\ attr resolvedAttrs "height" = JS.VNum 10
  /\ attr resolvedAttrs "stroke" = JS.VUndefined
  /\ attr resolvedAttrs "fill" = JS.VStr "red"
  /\ attr resolvedAttrs "opacity" = o.
Proof.
  unfold resolve, attr, red_square. simpl.
  repeat split;
    repeat (rewrite lookup_insert_ne by done);
    rewrite ?lookup_insert_eq, ?lookup_empty; reflexivity.
Qed.

(** C9, where the code departs from it.  A datum whose fill resolves to the
    colour red and whose opacity resolves to 0 is filled in the colour's own
    opacity: the test [if (resolvedAttrs["opacity"])] takes the number 0 for
    an absent opacity, so the resolved opacity is not applied, whereas the
    spec asks for the fill in the colour with opacity 0. *)
Theorem canvasDraw_zero_opacity_not_applied (point : nat) (red : Color)
    (ctx : Context) :
  color (JS.VStr "red") = Some red ->
  exists ctx',
    _canvasDraw [point] (red_square (JS.VNum 0)) ctx = (JS.Return tt, ctx')
    /\ drawn ctx' =
         drawn ctx ++
           [BeginPath; Rect (JS.VNum 0) (JS.VNum 0) (JS.VNum 10) (JS.VNum 10);
            Fill (rgb_toString red)]
    /\ specified_calls (resolve (red_square (JS.VNum 0)) point 0) =
         [BeginPath; Rect (JS.VNum 0) (JS.VNum 0) (JS.VNum 10) (JS.VNum 10);
          Fill (rgb_toString (set_opacity (JS.VNum 0) red))].
Proof.
  intros Hred. unfold _canvasDraw, JS.forEach. cbn [JS.forEach_from].
  unfold drawPoint, specified_calls.
  destruct (red_square_resolved (JS.VNum 0) point 0)
    as (-> & -> & -> & -> & -> & -> & ->).
  unfold paint. rewrite Hred. cbn.
  eexists. split; [reflexivity|]. split; [|reflexivity].
  cbn. by rewrite <- !app_assoc.
Qed.

(** Any other number is applied: with opacity one half the fill is painted
    in the colour with that opacity. *)
Lemma canvasDraw_half_opacity_applied (point : nat) (red : Color)
    (ctx : Context) :
  color (JS.VStr "red") = Some red ->
  _canvasDraw [point] (red_square (JS.VNum (1 # 2))) ctx =
    (JS.Return tt,
     mkContext (strokeStyle ctx)
       (rgb_toString (set_opacity (JS.VNum (1 # 2)) red))
       (drawn ctx ++
          [BeginPath; Rect (JS.VNum 0) (JS.VNum 0) (JS.VNum 10) (JS.VNum 10);
           Fill (rgb_toString (set_opacity (JS.VNum (1 # 2)) red))])).
Proof.
  intros Hred. unfold _canvasDraw, JS.forEach. cbn [JS.forEach_from].
  unfold drawPoint.
  destruct (red_square_resolved (JS.VNum (1 # 2)) point 0)
    as (-> & -> & -> & -> & -> & -> & ->).
  rewrite Hred. cbn.
  by rewrite <- !app_assoc.
Qed.

End DrawerBug.

Section DrawerExampleFacts.
Import RectangleDrawer DrawerSpec DrawerExamples.

Lemma canvasDraw_zero_opacity_not_applied_witness :
  exists ctx',
    _canvasDraw (H := red_only) [7] (red_square (JS.VNum 0)) blank
      = (JS.Return tt, ctx')
    /\ drawn ctx' =
         drawn blank ++
           [BeginPath; Rect (JS.VNum 0) (JS.VNum 0) (JS.VNum 10) (JS.VNum 10);
            Fill "rgb(255, 0, 0)"]
    /\ specified_calls (H := red_only)
         (resolve (red_square (JS.VNum 0)) 7 0) =
         [BeginPath; Rect (JS.VNum 0) (JS.VNum 0) (JS.VNum 10) (JS.VNum 10);
          Fill "rgba(255, 0, 0, 0)"].
Proof.
  apply (canvasDraw_zero_opacity_not_applied (H := red_only) 7 opaque_red blank).
  reflexivity.
Defined.

End DrawerExampleFacts.

(* ------------------------------------------------------------------ *)
(** ** Further properties of the code *)
(* ------------------------------------------------------------------ *)

(** *** The overlap resolution: what is left visible *)

Section OverlapOutcome.
Import NumericAxis NumericAxisSpec OverlapSpec.
Context `{UtilsDOM}.

Lemma every_nth_map {A B} (f : A -> B) (n : nat) (l : list A) :
  forall i, List.map f (every_nth n i l) = every_nth n i (List.map f l).
Proof.
  induction l as [|x l IH]; intros i; simpl; [reflexivity|].
  destruct (i mod n =? 0)%nat; simpl; by rewrite IH.
Qed.

(** From a counter [i] that is [d] short of a multiple of [n], the elements
    kept are those at [d], [d + n], [d + 2 * n], ... *)
Lemma every_nth_lookup_from {A} (n : nat) (l : list A) :
  1 <= n ->
  forall i d j,
    (i + d) mod n = 0 -> d < n ->
    every_nth n i l !! j = l !! (d + j * n).
Proof.
  intros Hn. induction l as [|x l IH]; intros i d j Hd Hlt; simpl.
  { by rewrite !lookup_nil. }
  destruct (i mod n =? 0)%nat eqn:Hi.
  - apply Nat.eqb_eq in Hi.
    assert (d = 0) as ->.
    { rewrite Nat.Div0.add_mod, Hi, Nat.add_0_l, Nat.Div0.mod_mod in Hd.
      by rewrite Nat.mod_small in Hd. }
    destruct j as [|j]; [reflexivity|]. simpl.
    rewrite (IH (S i) (n - 1) j).
    + replace (n + j * n) with (S (n - 1 + j * n)) by lia. reflexivity.
    + replace (S i + (n - 1)) with (i + 1 * n) by lia.
      by rewrite Nat.Div0.mod_add.
    + lia.
  - apply Nat.eqb_neq in Hi.
    destruct d as [|d]; [by rewrite Nat.add_0_r in Hd|]. simpl.
    apply IH; [|lia]. by replace (S i + d) with (i + S d) by lia.
Qed.

Lemma every_nth_lookup {A} (n : nat) (l : list A) (j : nat) :
  1 <= n -> every_nth n 0 l !! j = l !! (j * n).
Proof.
  intros Hn. rewrite (every_nth_lookup_from n l Hn 0 0 j); [done| |lia].
  apply Nat.Div0.mod_0_l.
Qed.

(** The labels [each] leaves visible are the visible labels whose position
    among the visible ones is a multiple of the interval. *)
Lemma filter_hide_each (interval : nat) (labels : list TickLabel) :
  forall i,
    List.filter isVisible (hide_each interval i labels) =
    every_nth interval i (List.filter isVisible labels).
Proof.
  induction labels as [|l labels IH]; intros i; simpl; [reflexivity|].
  destruct (isVisible l) eqn:Hvis; simpl.
  - destruct (i mod interval =? 0)%nat; simpl.
    + by rewrite ?Hvis, IH.
    + by rewrite ?hide_not_visible, IH.
  - by rewrite ?Hvis, IH.
Qed.

Lemma hide_each_one (labels : list TickLabel) :
  forall i, hide_each 1 i labels = labels.
Proof.
  induction labels as [|l labels IH]; intros i; cbn [hide_each];
    [reflexivity|].
  rewrite Nat.mod_1_r. cbn [Nat.eqb negb]. rewrite !IH.
  by destruct (isVisible l).
Qed.

Lemma set_tickLabels_same (a : Numeric) : set_tickLabels (_tickLabels a) a = a.
Proof. by destruct a. Qed.

(** The pass run to its end, with the interval it settled on. *)
Lemma hideOverlapping_run (a : Numeric) (fuel : nat) :
  length (_tickLabels a) < fuel ->
  exists interval,
    1 <= interval
    /\ kept_disjoint a (visibleRects a) interval
    /\ (forall k, 1 <= k < interval -> ~ kept_disjoint a (visibleRects a) k)
    /\ _hideOverlappingTickLabels fuel a =
         Some (set_tickLabels (hide_each interval 0 (_tickLabels a)) a).
Proof.
  intros Hfuel. pose proof (visibleRects_length a) as Hlen.
  destruct (interval_while_total a (visibleRects a) fuel 1)
    as (interval & Hrun & Hbounds & Hacc & Hmin); [lia..|].
  exists interval. split; [lia|]. split; [exact Hacc|]. split; [exact Hmin|].
  unfold _hideOverlappingTickLabels. fold (visibleRects a). by rewrite Hrun.
Qed.

Lemma visibleRects_after (a : Numeric) (interval : nat) :
  visibleRects (set_tickLabels (hide_each interval 0 (_tickLabels a)) a) =
  every_nth interval 0 (visibleRects a).
Proof.
  unfold visibleRects. simpl. by rewrite filter_hide_each, every_nth_map.
Qed.

(** After the pass at [interval], neighbours among the visible labels are
    disjoint. *)
Lemma neighbours_disjoint_after (a : Numeric) (interval : nat) :
  1 <= interval ->
  kept_disjoint a (visibleRects a) interval ->
  let a' := set_tickLabels (hide_each interval 0 (_tickLabels a)) a in
  kept_disjoint a' (visibleRects a') 1.
Proof.
  intros Hk Hacc a' j (ri & rj & Hi & Hj & Hov).
  unfold a' in Hi, Hj. rewrite visibleRects_after in Hi, Hj.
  rewrite every_nth_lookup in Hi, Hj by done.
  apply (Hacc j). exists ri, rj.
  split; [by rewrite <- Hi; f_equal; lia|].
  split; [by rewrite <- Hj; f_equal; lia|]. exact Hov.
Qed.

(** X1.  After the overlap resolution no two neighbouring visible labels
    overlap, each rect being expanded by the padding. *)
Theorem hideOverlapping_leaves_neighbours_disjoint (a : Numeric)
    (fuel : nat) :
  length (_tickLabels a) < fuel ->
  exists a',
    _hideOverlappingTickLabels fuel a = Some a'
    /\ forall j, ~ overlapping a' (visibleRects a') j (S j).
Proof.
  intros Hfuel.
  destruct (hideOverlapping_run a fuel Hfuel)
    as (interval & Hk & Hacc & _ & Hrun).
  eexists. split; [exact Hrun|]. intros j Hov.
  apply (neighbours_disjoint_after a interval Hk Hacc j).
  by replace (j * 1) with j by lia; replace (j + 1) with (S j) by lia.
Qed.

(** X2.  The overlap resolution is idempotent: run on its own result it
    hides nothing more. *)
Theorem hideOverlapping_idempotent (a : Numeric) (fuel : nat) :
  length (_tickLabels a) < fuel ->
  exists a',
    _hideOverlappingTickLabels fuel a = Some a'
    /\ _hideOverlappingTickLabels fuel a' = Some a'.
Proof.
  intros Hfuel.
  destruct (hideOverlapping_run a fuel Hfuel)
    as (interval & Hk & Hacc & _ & Hrun).
  eexists. split; [exact Hrun|].
  set (a' := set_tickLabels (hide_each interval 0 (_tickLabels a)) a).
  destruct (hideOverlapping_run a' fuel) as (k & Hk' & _ & Hmin & Hrun').
  { unfold a'. simpl. by rewrite hide_each_length. }
  assert (k = 1) as ->.
  { destruct (decide (k = 1)) as [|Hne]; [done|].
    destruct (Hmin 1); [lia|].
    by apply (neighbours_disjoint_after a interval). }
  by rewrite Hrun', hide_each_one, set_tickLabels_same.
Qed.

(** X3.  The labels left visible are evenly spaced among those that were
    visible: for some interval of at least 1, the [j]-th visible label
    afterwards is the visible label that was at position [j * interval].  In
    particular the first visible label is never hidden. *)
Theorem hideOverlapping_keeps_every_nth (a : Numeric) (fuel : nat) :
  length (_tickLabels a) < fuel ->
  exists a' interval,
    _hideOverlappingTickLabels fuel a = Some a'
    /\ 1 <= interval
    /\ (forall j,
          List.filter isVisible (_tickLabels a') !! j =
          List.filter isVisible (_tickLabels a) !! (j * interval))
    /\ List.filter isVisible (_tickLabels a') !! 0 =
       List.filter isVisible (_tickLabels a) !! 0.
Proof.
  intros Hfuel.
  destruct (hideOverlapping_run a fuel Hfuel)
    as (interval & Hk & _ & _ & Hrun).
  eexists. exists interval. split; [exact Hrun|]. split; [exact Hk|].
  simpl. rewrite filter_hide_each.
  split; [intros j|]; by rewrite every_nth_lookup.
Qed.

(** X4.  When no two neighbouring visible labels overlap, the overlap
    resolution changes nothing. *)
Theorem hideOverlapping_unchanged_without_overlap (a : Numeric)
    (fuel : nat) :
  length (_tickLabels a) < fuel ->
  (forall j, ~ overlapping a (visibleRects a) j (S j)) ->
  _hideOverlappingTickLabels fuel a = Some a.
Proof.
  intros Hfuel Hfree.
  destruct (hideOverlapping_run a fuel Hfuel)
    as (interval & Hk & _ & Hmin & Hrun).
  assert (interval = 1) as ->.
  { destruct (decide (interval = 1)) as [|Hne]; [done|].
    destruct (Hmin 1); [lia|]. intros j Hov. apply (Hfree j).
    by replace (j * 1) with j in Hov by lia;
       replace (j + 1) with (S j) in Hov by lia. }
  by rewrite Hrun, hide_each_one, set_tickLabels_same.
Qed.

(** X5.  With interval 0 the loop of [_hasOverlapWithInterval] compares the
    first rect with itself for ever: when that rect does not overlap
    itself, no amount of fuel yields an answer. *)
Theorem hasOverlapWithInterval_zero_diverges (a : Numeric)
    (rects : list ClientRect) (first : ClientRect) (fuel : nat) :
  rects !! 0 = Some first ->
  clientRectsOverlap (expandRect first (padding a))
                     (expandRect first (padding a)) = false ->
  _hasOverlapWithInterval fuel a 0 rects = None.
Proof.
  intros Hfirst Hself. unfold _hasOverlapWithInterval.
  fold (padding a).
  set (padded := List.map (fun rect => expandRect rect (padding a)) rects).
  assert (Hp : padded !! 0 = Some (expandRect first (padding a))).
  { unfold padded. by rewrite lookup_map, Hfirst. }
  assert (Hlen : (0 <? length padded - 0)%nat = true).
  { apply Nat.ltb_lt. apply lookup_lt_Some in Hp. lia. }
  induction fuel as [|fuel IH]; [reflexivity|].
  cbn [hasOverlap_for]. rewrite Hlen. simpl. rewrite Hp, Hself. exact IH.
Qed.

End OverlapOutcome.

Section OverlapOutcomeExamples.
Import NumericAxis NumericAxisSpec AxisExamples MoreExamples.
#[local] Existing Instance SpecDOM.utils.

Lemma hideOverlapping_leaves_neighbours_disjoint_witness :
  exists a',
    _hideOverlappingTickLabels 6 alternating_axis = Some a'
    /\ forall j, ~ overlapping a' (visibleRects a') j (S j).
Proof.
  apply (hideOverlapping_leaves_neighbours_disjoint alternating_axis 6).
  simpl. lia.
Defined.

Lemma hideOverlapping_idempotent_witness :
  exists a',
    _hideOverlappingTickLabels 6 alternating_axis = Some a'
    /\ _hideOverlappingTickLabels 6 a' = Some a'.
Proof.
  apply (hideOverlapping_idempotent alternating_axis 6). simpl. lia.
Defined.

Lemma hideOverlapping_keeps_every_nth_witness :
  exists a' interval,
    _hideOverlappingTickLabels 6 alternating_axis = Some a'
    /\ 1 <= interval
    /\ (forall j,
          List.filter isVisible (_tickLabels a') !! j =
          List.filter isVisible (_tickLabels alternating_axis)
            !! (j * interval))
    /\ List.filter isVisible (_tickLabels a') !! 0 =
       List.filter isVisible (_tickLabels alternating_axis) !! 0.
Proof.
  apply (hideOverlapping_keeps_every_nth alternating_axis 6). simpl. lia.
Defined.

Lemma hideOverlapping_unchanged_without_overlap_witness :
  _hideOverlappingTickLabels 3 apart_axis = Some apart_axis.
Proof.
  apply (hideOverlapping_unchanged_without_overlap apart_axis 3).
  - simpl. lia.
  - intros [|j] (ri & rj & Hi & Hj & Hov).
    + injection Hi as <-. injection Hj as <-. vm_compute in Hov. discriminate.
    + apply lookup_lt_Some in Hj. simpl in Hj. lia.
Defined.

Lemma hasOverlapWithInterval_zero_diverges_witness :
  _hasOverlapWithInterval 100 sliver_axis 0 (visibleRects sliver_axis) = None.
Proof.
  apply (hasOverlapWithInterval_zero_diverges sliver_axis
           (visibleRects sliver_axis) (span 5 5 0 10) 100);
    reflexivity.
Defined.

End OverlapOutcomeExamples.

(** ** Measuring, positions and tick values *)

Section NumericAxisMoreFacts.
Import NumericAxis NumericAxisSpec NumericAxisMore MoreExamples.

(** The callback of [_computeExactTextWidth] over the tick values, on an
    axis that is set up: every value is formatted and measured, in order. *)
Lemma exact_widths_run (a : Numeric) (tickValues : list Q) :
  _isSetup a = true ->
  forall (i : nat) (cs : list Call),
    JS.mapM_from
      (fun v (_ : nat) =>
         JS.bind (JS.gets formatter) (fun fmt =>
         JS.bind (measure (Some (fmt v))) (fun d => JS.ret (dim_width d))))
      i tickValues (add_calls cs a) =
    (JS.Return
       (List.map (fun v => dim_width (_measurer a (Some (formatter a v))))
          tickValues),
     add_calls
       (cs ++ List.map (fun v => CallMeasure (Some (formatter a v))) tickValues)
       a).
Proof.
  intros Hsetup.
  induction tickValues as [|v vs IH]; intros i cs; simpl.
  - unfold JS.ret. by rewrite app_nil_r.
  - unfold JS.bind at 1 2 3. unfold JS.gets at 1, measure at 1.
    unfold JS.bind at 1, JS.gets at 1.
    change (_isSetup (add_calls cs a)) with (_isSetup a). rewrite Hsetup.
    unfold JS.bind at 1, JS.modify at 1, JS.gets at 1, JS.ret at 1.
    change (log (CallMeasure (Some (formatter (add_calls cs a) v)))
              (add_calls cs a))
      with (add_calls [CallMeasure (Some (formatter a v))] (add_calls cs a)).
    rewrite add_calls_app.
    unfold JS.bind at 1. rewrite IH. unfold JS.ret.
    by rewrite <- app_assoc.
Qed.

(** The callback of [_computeApproximateTextWidth]: nothing is measured. *)
Lemma approximate_widths_run (a : Numeric) (mWidth : Q)
    (tickValues : list Q) :
  forall (i : nat),
    JS.mapM_from
      (fun v (_ : nat) =>
         JS.bind (JS.gets formatter) (fun fmt =>
         JS.ret (inject_Z (Z.of_nat (String.length (fmt v))) * mWidth)%Q))
      i tickValues a =
    (JS.Return
       (List.map
          (fun v =>
             (inject_Z (Z.of_nat (String.length (formatter a v))) * mWidth)%Q)
          tickValues),
     a).
Proof.
  induction tickValues as [|v vs IH]; intros i; simpl; [reflexivity|].
  unfold JS.bind at 1 2. unfold JS.gets at 1, JS.ret at 1.
  unfold JS.bind at 1. by rewrite IH.
Qed.

(** [_computeWidth] run to its end on an axis that is set up: the measurer
    calls it makes and the width it returns. *)
Lemma computeWidth_run (a : Numeric) :
  _isSetup a = true ->
  let ticks := _getTickValues a in
  let measured :=
    if _usesTextWidthApproximation a then [CallMeasure (Some "M")]
    else List.map (fun v => CallMeasure (Some (formatter a v))) ticks in
  let widths :=
    if _usesTextWidthApproximation a
    then List.map
           (fun v =>
              (inject_Z (Z.of_nat (String.length (formatter a v)))
               * dim_width (_measurer a (Some "M")))%Q) ticks
    else List.map
           (fun v => dim_width (_measurer a (Some (formatter a v)))) ticks in
  let maxTextWidth := Utils_Math_max widths 0 in
  _computeWidth a =
    (JS.Return
       (if String.eqb (_tickLabelPositioning a) "center"
        then (_maxLabelTickLength a + tickLabelPadding a + maxTextWidth)%Q
        else JS.Math_max (_maxLabelTickLength a)
               (tickLabelPadding a + maxTextWidth)%Q),
     add_calls measured a).
Proof.
  intros Hsetup. cbv zeta. unfold _computeWidth.
  unfold JS.bind at 1. unfold JS.gets at 1.
  destruct (_usesTextWidthApproximation a) eqn:Happrox.
  - unfold JS.bind at 1, _computeApproximateTextWidth.
    unfold JS.bind at 1. unfold JS.gets at 1.
    unfold JS.bind at 1. unfold measure at 1.
    unfold JS.bind at 1, JS.gets at 1. rewrite Hsetup.
    unfold JS.bind at 1, JS.modify at 1, JS.gets at 1.
    change (log (CallMeasure (Some "M")) a)
      with (add_calls [CallMeasure (Some "M")] a).
    unfold JS.bind at 1, JS.mapM.
    rewrite (approximate_widths_run (add_calls [CallMeasure (Some "M")] a)).
    unfold JS.ret at 1. unfold JS.bind, JS.get.
    change (_tickLabelPositioning (add_calls [CallMeasure (Some "M")] a))
      with (_tickLabelPositioning a).
    by destruct (String.eqb (_tickLabelPositioning a) "center").
  - unfold JS.bind at 1, _computeExactTextWidth.
    unfold JS.bind at 1. unfold JS.gets at 1.
    unfold JS.bind at 1, JS.mapM.
    pose proof (exact_widths_run a (_getTickValues a) Hsetup 0 []) as Hexact.
    rewrite add_calls_nil in Hexact. simpl app in Hexact. rewrite Hexact.
    unfold JS.ret at 1. unfold JS.bind, JS.get.
    set (cs := List.map _ (_getTickValues a)).
    change (_tickLabelPositioning (add_calls cs a))
      with (_tickLabelPositioning a).
    by destruct (String.eqb (_tickLabelPositioning a) "center").
Qed.

(** X6.  On an axis that is set up, switching the text width approximation
    on or off decides what [_computeWidth] measures.  With the approximation
    on it calls the measurer exactly once, on the letter M, however many
    ticks there are; with it off it measures the formatted text of every
    tick value of the domain, in tick order.  Either way it returns normally
    and changes nothing else of the axis. *)
Theorem computeWidth_measures_once_when_approximating (a : Numeric)
    (enable : bool) :
  _isSetup a = true ->
  exists width,
    JS.bind (usesTextWidthApproximation (Some enable))
      (fun _ => _computeWidth) a =
    (JS.Return width,
     add_calls
       (if enable then [CallMeasure (Some "M")]
        else List.map (fun v => CallMeasure (Some (formatter a v)))
               (_getTickValues a))
       (set_usesTextWidthApproximation enable a)).
Proof.
  intros Hsetup. unfold JS.bind at 1, usesTextWidthApproximation.
  unfold JS.bind at 1, JS.modify at 1, JS.ret at 1.
  pose proof (computeWidth_run (set_usesTextWidthApproximation enable a)
                Hsetup) as Hrun. cbv zeta in Hrun. rewrite Hrun. eexists.
  by destruct enable.
Qed.

Lemma Math_max_ge_l (x y : Q) : (x <= JS.Math_max x y)%Q.
Proof.
  unfold JS.Math_max. destruct (Qle_bool x y) eqn:Hle.
  - by apply Qle_bool_iff.
  - apply Qle_refl.
Qed.

Lemma Math_max_ge_r (x y : Q) : (y <= JS.Math_max x y)%Q.
Proof.
  unfold JS.Math_max. destruct (Qle_bool x y) eqn:Hle.
  - apply Qle_refl.
  - apply Qlt_le_weak, Qnot_le_lt. intros Hxy.
    apply Qle_bool_iff in Hxy. congruence.
Qed.

Lemma foldl_max_ge_init (l : list Q) :
  forall acc, (acc <= foldl JS.Math_max acc l)%Q.
Proof.
  induction l as [|x l IH]; intros acc; simpl; [apply Qle_refl|].
  eapply Qle_trans; [apply Math_max_ge_l|apply IH].
Qed.

Lemma foldl_max_ge_elem (l : list Q) (x : Q) :
  In x l -> forall acc, (x <= foldl JS.Math_max acc l)%Q.
Proof.
  induction l as [|y l IH]; intros Hin acc; [destruct Hin|]. simpl.
  destruct Hin as [-> | Hin]; [|by apply IH].
  eapply Qle_trans; [apply Math_max_ge_r|apply foldl_max_ge_init].
Qed.

Lemma Utils_Math_max_ge (l : list Q) (x default : Q) :
  In x l -> (x <= Utils_Math_max l default)%Q.
Proof.
  destruct l as [|y l]; intros Hin; [destruct Hin|]. simpl.
  destruct Hin as [-> | Hin]; [apply foldl_max_ge_init|].
  by apply foldl_max_ge_elem.
Qed.

(** X7.  On an axis that is set up, with exact measuring and a tick length
    that is not negative, [_computeWidth] returns a width that leaves room
    for every tick label of the domain: it is at least the label padding plus
    the measured width of the formatted value, for every tick value
    [_getTickValues] yields. *)
Theorem computeWidth_fits_every_label (a : Numeric) :
  _isSetup a = true ->
  _usesTextWidthApproximation a = false ->
  (0 <= _maxLabelTickLength a)%Q ->
  exists width a',
    _computeWidth a = (JS.Return width, a')
    /\ forall v,
         In v (_getTickValues a) ->
         (tickLabelPadding a
          + dim_width (_measurer a (Some (formatter a v))) <= width)%Q.
Proof.
  intros Hsetup Hexact Htick. pose proof (computeWidth_run a Hsetup) as Hrun.
  cbv zeta in Hrun. rewrite Hexact in Hrun. rewrite Hrun.
  eexists. eexists. split; [reflexivity|]. intros v Hv.
  set (widths := List.map _ (_getTickValues a)).
  assert (Hmax : (dim_width (_measurer a (Some (formatter a v)))
                  <= Utils_Math_max widths 0)%Q).
  { apply Utils_Math_max_ge. unfold widths.
    apply (in_map (fun v => dim_width (_measurer a (Some (formatter a v))))
             _ _ Hv). }
  destruct (String.eqb (_tickLabelPositioning a) "center").
  - lra.
  - eapply Qle_trans; [|apply Math_max_ge_r]. lra.
Qed.

(** X21.  On an axis that is not set up there is no measurer yet, and
    measuring is a [TypeError] that leaves the axis as it was:
    [_computeHeight] always throws it, and [_computeWidth] throws it as soon
    as it has something to measure, that is with the approximation on or with
    a tick value in the domain.  With exact measuring and no tick value in
    the domain nothing is measured and [_computeWidth] returns a width. *)
Theorem computeWidth_before_setup_throws (a : Numeric) :
  _isSetup a = false ->
  let error := JS.Throw "TypeError: this._measurer is undefined" in
  _computeHeight a = (error, a)
  /\ (_usesTextWidthApproximation a = true \/ _getTickValues a <> [] ->
      _computeWidth a = (error, a))
  /\ (_usesTextWidthApproximation a = false -> _getTickValues a = [] ->
      exists width, _computeWidth a = (JS.Return width, a)).
Proof.
  intros Hsetup. cbv zeta.
  assert (Hmeasure : forall text,
    measure text a = (JS.Throw "TypeError: this._measurer is undefined", a)).
  { intros text. unfold measure, JS.bind, JS.gets. by rewrite Hsetup. }
  split; [|split].
  - unfold _computeHeight. unfold JS.bind at 1. by rewrite Hmeasure.
  - intros Hsome. unfold _computeWidth.
    unfold JS.bind at 1. unfold JS.gets at 1. unfold JS.bind at 1.
    destruct (_usesTextWidthApproximation a) eqn:Happrox.
    + unfold _computeApproximateTextWidth.
      unfold JS.bind at 1. unfold JS.gets at 1. unfold JS.bind at 1.
      by rewrite Hmeasure.
    + destruct Hsome as [Hon | Hticks]; [discriminate|].
      unfold _computeExactTextWidth.
      unfold JS.bind at 1. unfold JS.gets at 1. unfold JS.bind at 1.
      unfold JS.mapM.
      destruct (_getTickValues a) as [|v vs]; [done|]. simpl.
      unfold JS.bind at 1. unfold JS.bind at 1. unfold JS.gets at 1.
      unfold JS.bind at 1. by rewrite Hmeasure.
  - intros Hexact Hnone. unfold _computeWidth.
    unfold JS.bind at 1. unfold JS.gets at 1. rewrite Hexact.
    unfold JS.bind at 1, _computeExactTextWidth.
    unfold JS.bind at 1. unfold JS.gets at 1. rewrite Hnone.
    unfold JS.bind, JS.mapM, JS.get, JS.ret. simpl.
    destruct (String.eqb (_tickLabelPositioning a) "center"); by eexists.
Qed.

(** X8.  Setting the tick label position and reading it back: the getter
    returns the lowercased position when it was valid for the orientation,
    and the position stored before when the setter threw. *)
Theorem tickLabelPosition_set_then_get (a : Numeric) (position : string) :
  let after := (tickLabelPosition (Some position) a).2 in
  tickLabelPosition None after =
    (JS.Return
       (CurrentPosition
          (if validPosition (isHorizontal a) (JS.toLowerCase position)
           then JS.toLowerCase position
           else _tickLabelPositioning a)),
     after).
Proof.
  cbv zeta.
  destruct (validPosition (isHorizontal a) (JS.toLowerCase position))
    eqn:Hvalid.
  - by rewrite (tickLabelPosition_valid_sets a position Hvalid).
  - assert (exists msg,
      tickLabelPosition (Some position) a = (JS.Throw msg, a)) as [msg ->].
    { unfold tickLabelPosition, validPosition in *.
      unfold JS.bind, JS.gets, JS.throw.
      destruct (isHorizontal a); rewrite Hvalid; by eexists. }
    reflexivity.
Qed.

(** X9.  The order in which the domain gives its two bounds does not matter
    to [_getTickValues]: two axes whose scales have the same ticks and the
    same bounds in opposite order yield the same tick values. *)
Theorem getTickValues_domain_order (a b : Numeric) :
  scale_ticks (_scale a) = scale_ticks (_scale b) ->
  (scale_domain (_scale b)).1 = (scale_domain (_scale a)).2 ->
  (scale_domain (_scale b)).2 = (scale_domain (_scale a)).1 ->
  _getTickValues a = _getTickValues b.
Proof.
  intros Hticks H1 H2. unfold _getTickValues. cbv zeta.
  rewrite !domain_min, !domain_max, <- Hticks, H1, H2.
  apply filter_ext. intros v. unfold JS.ge, JS.le. f_equal.
  - apply Qleb_comp; [apply Q.min_comm|reflexivity].
  - apply Qleb_comp; [reflexivity|apply Q.max_comm].
Qed.

Lemma computeWidth_fits_every_label_witness :
  exists width a',
    _computeWidth AxisExamples.rescale_example = (JS.Return width, a')
    /\ forall v,
         In v (_getTickValues AxisExamples.rescale_example) ->
         (tickLabelPadding AxisExamples.rescale_example
          + dim_width (_measurer AxisExamples.rescale_example
                         (Some (formatter AxisExamples.rescale_example v)))
          <= width)%Q.
Proof.
  apply (computeWidth_fits_every_label AxisExamples.rescale_example);
    [reflexivity | reflexivity | unfold Qle; simpl; lia].
Defined.

Lemma computeWidth_measures_once_when_approximating_witness :
  exists width,
    JS.bind (usesTextWidthApproximation (Some true))
      (fun _ => _computeWidth) AxisExamples.rescale_example =
    (JS.Return width,
     add_calls [CallMeasure (Some "M")]
       (set_usesTextWidthApproximation true AxisExamples.rescale_example)).
Proof.
  apply (computeWidth_measures_once_when_approximating
           AxisExamples.rescale_example true).
  reflexivity.
Defined.

Lemma computeWidth_before_setup_throws_witness :
  let error := JS.Throw "TypeError: this._measurer is undefined" in
  _computeHeight new_axis = (error, new_axis)
  /\ _computeWidth new_axis = (error, new_axis).
Proof.
  destruct (computeWidth_before_setup_throws new_axis eq_refl)
    as (Hheight & Hwidth & _).
  split; [exact Hheight|]. apply Hwidth. right.
  intros Hnone. vm_compute in Hnone. discriminate.
Defined.

Lemma getTickValues_domain_order_witness :
  _getTickValues ascending_axis = _getTickValues descending_axis.
Proof.
  apply (getTickValues_domain_order ascending_axis descending_axis);
    reflexivity.
Defined.

End NumericAxisMoreFacts.

(** ** Hiding the end tick labels *)

Section EndLabelsFacts.
Import NumericAxis NumericAxisSpec NumericAxisMore.
Variable clientRectInside : ClientRect -> ClientRect -> bool.
Variable boundingBox : ClientRect.
Abbreviation mark := (EndLabelsSpec.mark clientRectInside boundingBox).

Lemma hide_if_outside_run (a : Numeric) (i : nat) (label : TickLabel) :
  _tickLabels a !! i = Some label ->
  JS.bind (rect_at i)
    (fun rect =>
       if negb (clientRectInside rect boundingBox)
       then hide_at i else JS.ret tt) a =
  (JS.Return tt, set_tickLabels (<[i := mark label]> (_tickLabels a)) a).
Proof.
  intros Hi. unfold JS.bind at 1, rect_at.
  unfold JS.bind at 1, JS.gets at 1. rewrite Hi. unfold JS.ret at 1.
  unfold EndLabelsSpec.mark.
  destruct (clientRectInside (label_rect label) boundingBox); simpl.
  - unfold JS.ret. by rewrite list_insert_id, set_tickLabels_same.
  - unfold hide_at, JS.bind, JS.gets, JS.modify. by rewrite Hi.
Qed.

(** X10.  [_hideEndTickLabels] returns normally and can only hide the first
    and the last tick label: each of the two is hidden exactly when its rect
    is not inside the bounding box of the axis, every label between them is
    left as it is, and an axis without tick labels is left unchanged. *)
Theorem hideEndTickLabels_touches_only_ends (a : Numeric) :
  exists labels',
    _hideEndTickLabels clientRectInside boundingBox a =
      (JS.Return tt, set_tickLabels labels' a)
    /\ length labels' = length (_tickLabels a)
    /\ forall p label,
         _tickLabels a !! p = Some label ->
         labels' !! p =
           Some (if ((p =? 0)%nat || (p =? length (_tickLabels a) - 1)%nat)
                    && negb (clientRectInside (label_rect label) boundingBox)
                 then hide label else label).
Proof.
  unfold _hideEndTickLabels. unfold JS.bind at 1, JS.gets at 1.
  destruct (length (_tickLabels a) =? 0)%nat eqn:Hn.
  { apply Nat.eqb_eq in Hn. exists (_tickLabels a). split.
    - by rewrite set_tickLabels_same.
    - split; [done|]. intros p label Hp. apply lookup_lt_Some in Hp. lia. }
  apply Nat.eqb_neq in Hn.
  set (n := length (_tickLabels a)) in *.
  destruct (lookup_lt_is_Some_2 (_tickLabels a) 0) as [first Hfirst]; [lia|].
  set (labels1 := <[0 := mark first]> (_tickLabels a)).
  assert (Hlen1 : length labels1 = n) by apply length_insert.
  destruct (lookup_lt_is_Some_2 labels1 (n - 1)) as [last Hlast]; [lia|].
  exists (<[n - 1 := mark last]> labels1). split.
  { change (JS.bind (rect_at 0) ?k a)
      with (JS.bind (rect_at 0)
              (fun rect =>
                 JS.bind (if negb (clientRectInside rect boundingBox)
                          then hide_at 0 else JS.ret tt)
                   (fun _ =>
                      JS.bind (rect_at (n - 1))
                        (fun lastRect =>
                           if negb (clientRectInside lastRect boundingBox)
                           then hide_at (n - 1) else JS.ret tt))) a).
    unfold JS.bind at 1 2.
    pose proof (hide_if_outside_run a 0 first Hfirst) as Hstep1.
    unfold JS.bind at 1 in Hstep1.
    destruct (rect_at 0 a) as [[rect|msg] a0]; [|discriminate].
    rewrite Hstep1.
    fold labels1.
    exact (hide_if_outside_run (set_tickLabels labels1 a) (n - 1) last
             Hlast). }
  split; [by rewrite !length_insert|].
  intros p label Hp.
  assert (Hp1 : labels1 !! p =
                Some (if (p =? 0)%nat then mark label else label)).
  { unfold labels1. destruct p as [|p]; simpl.
    - rewrite list_lookup_insert_eq by lia. congruence.
    - by rewrite list_lookup_insert_ne. }
  assert (Hmark : forall l, mark (mark l) = mark l).
  { intros l. unfold EndLabelsSpec.mark.
    destruct (clientRectInside (label_rect l) boundingBox) eqn:Hin;
      [by rewrite Hin|]. simpl. by rewrite Hin. }
  destruct (decide (p = n - 1)) as [->|Hne].
  - rewrite list_lookup_insert_eq by lia.
    rewrite Hp1 in Hlast. injection Hlast as <-.
    rewrite Nat.eqb_refl, orb_true_r. cbn [andb].
    destruct (n - 1 =? 0)%nat; rewrite ?Hmark; unfold EndLabelsSpec.mark;
      by destruct (clientRectInside (label_rect label) boundingBox).
  - rewrite list_lookup_insert_ne by done. rewrite Hp1.
    apply Nat.eqb_neq in Hne. fold n. rewrite Hne, orb_false_r.
    destruct (p =? 0)%nat; [|done]. unfold EndLabelsSpec.mark. cbn [andb].
    by destruct (clientRectInside (label_rect label) boundingBox).
Qed.

End EndLabelsFacts.

(** ** The component container: removing twice, and the bare container *)

Section ContainerMoreFacts.
Import Container ContainerSpec ContainerExamples ContainerLifecycle.

(** X11.  Removing a member twice is removing it once, as long as [_remove]
    took it out of the children: the second [remove] finds [has] false and
    does nothing, so the detach callback is unsubscribed, the component
    detached and the redraw requested only once. *)
Theorem remove_twice_is_remove_once {C} `{Variant C}
    (s : ComponentContainer C) (x : Component) :
  has x (children s) = JS.Return true ->
  has x (_remove x (children s)).2 = JS.Return false ->
  JS.bind (remove x) (fun _ => remove x) s = remove x s
  /\ calls (remove x s).2 = calls s ++ removal_calls x.
Proof.
  intros Hmember Hgone. unfold JS.bind at 1.
  rewrite (remove_member s x Hmember). simpl. split; [|reflexivity].
  by apply remove_non_member.
Qed.

Lemma remove_twice_is_remove_once_witness :
  JS.bind (remove (H := Group) 2) (fun _ => remove (H := Group) 2)
    three_children
  = remove (H := Group) 2 three_children
  /\ calls (remove (H := Group) 2 three_children).2 =
     calls three_children ++ removal_calls 2.
Proof.
  apply (remove_twice_is_remove_once (H := Group) three_children 2);
    reflexivity.
Defined.

(** X12.  On a bare [ComponentContainer], whose [_forEach] is not
    implemented, every lifecycle method throws that error.  [render] and
    [invalidateCache] throw before doing anything; [anchor] and [destroy]
    throw only after the inherited [anchor] or [destroy] has run. *)
Theorem lifecycle_on_bare_container_throws (s : Lifecycle unit) :
  let msg := "_forEach() is not implemented on ComponentContainer" in
  let after call :=
    mkLifecycle (members s) (lifecycle_calls s ++ [call]) in
  render (H := BaseIteration) s = (JS.Throw msg, s)
  /\ invalidateCache (H := BaseIteration) s = (JS.Throw msg, s)
  /\ anchor (H := BaseIteration) s = (JS.Throw msg, after SuperAnchor)
  /\ destroy (H := BaseIteration) s = (JS.Throw msg, after SuperDestroy).
Proof. repeat split. Qed.

End ContainerMoreFacts.

(** ** The grid plot: projections *)

Section GridMoreFacts.
Import GridPlot GridPlotSpec.
Context {Datum UserMetadata PlotMetadata : Type}.
Abbreviation World := (@World Datum UserMetadata PlotMetadata).
Abbreviation AccessorFn := (@AccessorFn Datum UserMetadata PlotMetadata).
Abbreviation Accessor := (@Accessor Datum UserMetadata PlotMetadata).

(** The world after ["x"] or ["y"] has been projected through a
    quantitative scale: the projection itself and the one derived from it
    are stored. *)
Lemma project_quantitative_run (depth : nat) (axis : string) (f : AccessorFn)
    (r : ScaleRef) (q : JS.value -> Q) (w : World) :
  axis = "x" \/ axis = "y" ->
  scales w !! r = Some (ScaleQuantitative q) ->
  project (S (S depth)) axis (UserAccessor f) (Some r) w =
    (JS.Return tt,
     set_plot
       (set_projections
          (<[String.append axis "1" := mkProjection (ScaledValue axis r) None]>
             (<[axis := mkProjection (UserAccessor f) (Some r)]>
                (_projections (plot w))))
          (plot w)) w).
Proof.
  intros Haxis Hr. cbn [project]. unfold project_body.
  destruct Haxis as [-> | ->]; simpl String.eqb; cbn [when];
    unfold JS.bind, super_project, JS.modify, JS.get, JS.ret,
      instanceofCategory, instanceofQuantitative;
    simpl; rewrite Hr; simpl; rewrite ?Hr; reflexivity.
Qed.

(** X14.  Projecting ["x"] (or ["y"]) through a quantitative scale returns
    normally, leaves the scales alone and derives only ["x1"] (["y1"]), which
    evaluates to [scale(accessor(d, i))]; the projection ["x2"] (["y2"]) is
    whatever it was before. *)
Theorem project_quantitative_derives_scaled (w : World) (axis : string)
    (f : AccessorFn) (r : ScaleRef) (q : JS.value -> Q) (depth : nat) :
  axis = "x" \/ axis = "y" ->
  scales w !! r = Some (ScaleQuantitative q) ->
  2 <= depth ->
  exists w',
    project depth axis (UserAccessor f) (Some r) w = (JS.Return tt, w')
    /\ scales w' = scales w
    /\ (forall calls d i u m,
          2 <= calls ->
          projected calls w' (String.append axis "1") d i u m =
            JS.Return (JS.VNum (q (f d i u m))))
    /\ _projections (plot w') !! String.append axis "2" =
       _projections (plot w) !! String.append axis "2".
Proof.
  intros Haxis Hr Hdepth. destruct depth as [|[|depth]]; try lia.
  eexists. split; [by apply (project_quantitative_run depth axis f r q w)|].
  split; [reflexivity|]. split.
  - intros [|[|calls]] d i u m Hcalls; try lia.
    unfold projected. cbn [plot set_plot _projections set_projections].
    destruct Haxis as [-> | ->]; cbn [String.append];
      rewrite lookup_insert_eq;
      cbn [callAccessor accessor plot set_plot _projections set_projections
           scales];
      rewrite ?(lookup_insert_ne _ "x1" "x"), ?(lookup_insert_ne _ "y1" "y")
        by done;
      rewrite lookup_insert_eq, Hr; done.
  - cbn [plot set_plot _projections set_projections].
    destruct Haxis as [-> | ->]; cbn [String.append];
      by rewrite !lookup_insert_ne.
Qed.

(** X15.  [project] never removes what it derived earlier.  When ["x"] (or
    ["y"]) is projected through a category scale and then projected again
    through a quantitative scale, ["x1"] is derived anew, but ["x2"] is still
    the band projection of the category scale, now fed by the new accessor:
    it evaluates to [categoryScale(accessor(d, i))] plus half the band
    width. *)
Theorem reprojecting_keeps_band_end (w : World) (axis : string)
    (f g : AccessorFn) (rc rq : ScaleRef) (c : Category) (q : JS.value -> Q)
    (depth : nat) :
  axis = "x" \/ axis = "y" ->
  scales w !! rc = Some (ScaleCategory c) ->
  scales w !! rq = Some (ScaleQuantitative q) ->
  2 <= depth ->
  exists w1 w2,
    project depth axis (UserAccessor f) (Some rc) w = (JS.Return tt, w1)
    /\ project depth axis (UserAccessor g) (Some rq) w1 = (JS.Return tt, w2)
    /\ forall calls d i u m,
         2 <= calls ->
         projected calls w2 (String.append axis "1") d i u m =
           JS.Return (JS.VNum (q (g d i u m)))
         /\ projected calls w2 (String.append axis "2") d i u m =
           JS.Return (JS.VNum (Category_scale c (g d i u m) + rangeBand c / 2)).
Proof.
  intros Haxis Hc Hq Hdepth. destruct depth as [|[|depth]]; try lia.
  eexists. eexists.
  split; [by apply (project_category_run depth axis f rc c w)|].
  split; [by apply (project_quantitative_run depth axis g rq q)|].
  intros [|[|calls]] d i u m Hcalls; try lia.
  unfold projected. cbn [plot set_plot _projections set_projections].
  destruct Haxis as [-> | ->]; cbn [String.append]; split;
    rewrite ?lookup_insert_eq;
    rewrite ?(lookup_insert_ne _ "x1" "x2"), ?(lookup_insert_ne _ "x" "x2"),
      ?(lookup_insert_ne _ "y1" "y2"), ?(lookup_insert_ne _ "y" "y2") by done;
    rewrite ?lookup_insert_eq;
    cbn [callAccessor accessor plot set_plot _projections set_projections
         scales];
    rewrite ?(lookup_insert_ne _ "x1" "x"), ?(lookup_insert_ne _ "y1" "y")
      by done;
    rewrite lookup_insert_eq, ?Hq, ?Hc; done.
Qed.

(** X16.  Whatever attribute, accessor and scale it is given, [project]
    returns normally once it may nest two calls.  It stores the projection
    under the attribute, sets the colour scale to the given scale exactly
    when the attribute is ["fill"] (also when no scale is given), and
    touches no projection other than the attribute's own and the derived
    ["x1"], ["x2"], ["y1"], ["y2"]; the scales, the warnings, the datasets
    and their keys, the CSS classes and the animators are as before. *)
Theorem project_frame (w : World) (attr : string) (acc : Accessor)
    (scale : option ScaleRef) (depth : nat) :
  2 <= depth ->
  exists w',
    project depth attr acc scale w = (JS.Return tt, w')
    /\ _projections (plot w') !! attr = Some (mkProjection acc scale)
    /\ _colorScale (plot w') =
         (if String.eqb attr "fill" then scale else _colorScale (plot w))
    /\ (forall attr',
          attr' <> attr -> attr' <> "x1" -> attr' <> "x2" ->
          attr' <> "y1" -> attr' <> "y2" ->
          _projections (plot w') !! attr' = _projections (plot w) !! attr')
    /\ scales w' = scales w
    /\ warnings w' = warnings w
    /\ _datasetKeysInOrder (plot w') = _datasetKeysInOrder (plot w)
    /\ _key2PlotDatasetKey (plot w') = _key2PlotDatasetKey (plot w)
    /\ _cssClasses (plot w') = _cssClasses (plot w)
    /\ _animators (plot w') = _animators (plot w).
Proof.
  intros Hdepth. destruct depth as [|[|depth]]; try lia.
  cbn [project]. unfold project_body.
  destruct (String.eqb_spec attr "x") as [-> | Hx];
    [|destruct (String.eqb_spec attr "y") as [-> | Hy];
      [|destruct (String.eqb_spec attr "fill") as [-> | Hfill]]];
    simpl String.eqb; cbn [when];
    unfold JS.bind, super_project, JS.modify, JS.get, JS.ret,
      instanceofCategory, instanceofQuantitative; simpl.
  - destruct scale as [r|]; simpl;
      [destruct (scales w !! r) as [[c|q|o]|] eqn:Hr; simpl; rewrite ?Hr|];
      (eexists; split; [reflexivity|]); simpl;
      (split; [by rewrite ?lookup_insert_ne by done; rewrite lookup_insert_eq|]);
      (split; [done|]);
      (split; [by intros attr' ? ? ? ? ?; rewrite !lookup_insert_ne|]);
      done.
  - destruct scale as [r|]; simpl;
      [destruct (scales w !! r) as [[c|q|o]|] eqn:Hr; simpl; rewrite ?Hr|];
      (eexists; split; [reflexivity|]); simpl;
      (split; [by rewrite ?lookup_insert_ne by done; rewrite lookup_insert_eq|]);
      (split; [done|]);
      (split; [by intros attr' ? ? ? ? ?; rewrite !lookup_insert_ne|]);
      done.
  - rewrite lookup_insert_eq. simpl.
    eexists. split; [reflexivity|]. simpl.
    split; [by rewrite lookup_insert_eq|]. split; [done|].
    split; [by intros attr' ? ? ? ? ?; rewrite lookup_insert_ne|]. done.
  - eexists. split; [reflexivity|]. simpl.
    split; [by rewrite lookup_insert_eq|]. split; [done|].
    split; [by intros attr' ? ? ? ? ?; rewrite lookup_insert_ne|]. done.
Qed.

End GridMoreFacts.

Section GridMoreExampleFacts.
Import GridPlot GridPlotSpec GridExamples.

Lemma project_quantitative_derives_scaled_witness :
  exists w',
    project 2 "y" (UserAccessor self_accessor) (Some 1) empty_world
      = (JS.Return tt, w')
    /\ scales w' = scales empty_world
    /\ (forall calls d i u m,
          2 <= calls ->
          projected calls w' (String.append "y" "1") d i u m =
            JS.Return
              (JS.VNum
                 ((fun v => match v with JS.VNum n => n | _ => 0%Q end)
                    (self_accessor d i u m))))
    /\ _projections (plot w') !! String.append "y" "2" =
       _projections (plot empty_world) !! String.append "y" "2".
Proof.
  apply (project_quantitative_derives_scaled empty_world "y" self_accessor
           1 (fun v => match v with JS.VNum n => n | _ => 0%Q end) 2);
    [right; reflexivity | reflexivity | lia].
Defined.

Lemma reprojecting_keeps_band_end_witness :
  exists w1 w2,
    project 2 "x" (UserAccessor self_accessor) (Some 0) empty_world
      = (JS.Return tt, w1)
    /\ project 2 "x" (UserAccessor (fun d _ _ _ => JS.VNum 0)) (Some 1) w1
       = (JS.Return tt, w2)
    /\ forall calls (d : nat) i (u m : unit),
         2 <= calls ->
         projected calls w2 (String.append "x" "1") d i u m =
           JS.Return
             (JS.VNum
                ((fun v => match v with JS.VNum n => n | _ => 0%Q end)
                   (JS.VNum 0)))
         /\ projected calls w2 (String.append "x" "2") d i u m =
           JS.Return
             (JS.VNum (Category_scale bands (JS.VNum 0) + rangeBand bands / 2)).
Proof.
  apply (reprojecting_keeps_band_end empty_world "x" self_accessor
           (fun d _ _ _ => JS.VNum 0) 0 1 bands
           (fun v => match v with JS.VNum n => n | _ => 0%Q end) 2);
    [left; reflexivity | reflexivity | reflexivity | lia].
Defined.

Lemma project_frame_witness :
  exists w',
    project 2 "fill" (UserAccessor self_accessor) None empty_world
      = (JS.Return tt, w')
    /\ _projections (plot w') !! "fill"
       = Some (mkProjection (UserAccessor self_accessor) None)
    /\ _colorScale (plot w') =
         (if String.eqb "fill" "fill" then None
          else _colorScale (plot empty_world))
    /\ (forall attr',
          attr' <> "fill" -> attr' <> "x1" -> attr' <> "x2" ->
          attr' <> "y1" -> attr' <> "y2" ->
          _projections (plot w') !! attr'
          = _projections (plot empty_world) !! attr')
    /\ scales w' = scales empty_world
    /\ warnings w' = warnings empty_world
    /\ _datasetKeysInOrder (plot w') = _datasetKeysInOrder (plot empty_world)
    /\ _key2PlotDatasetKey (plot w') = _key2PlotDatasetKey (plot empty_world)
    /\ _cssClasses (plot w') = _cssClasses (plot empty_world)
    /\ _animators (plot w') = _animators (plot empty_world).
Proof.
  apply (project_frame empty_world "fill" (UserAccessor self_accessor) None 2).
  lia.
Defined.

End GridMoreExampleFacts.

(** ** The grid plot: the dataset guard *)

Section GridGuardFacts.
Import GridPlot GridPlotSpec GridExamples MoreGridExamples.

(** X17.  The guard of [addDataset] rejects only when the plot holds exactly
    one dataset key.  With none, or with two or more, the call is handed to
    the inherited [addDataset], whose outcome and state it passes on, and
    [Grid] writes no warning of its own. *)
Theorem addDataset_passed_on_unless_one
    {Datum UserMetadata PlotMetadata : Type}
    {inherited : @Inherited Datum UserMetadata PlotMetadata}
    (w : @World Datum UserMetadata PlotMetadata)
    (keyOrDataset : @KeyOrDataset Datum) (dataset : option (list Datum)) :
  length (_datasetKeysInOrder (plot w)) <> 1 ->
  addDataset keyOrDataset dataset w =
    match super_addDataset keyOrDataset dataset w with
    | (JS.Return _, w') => (JS.Return tt, w')
    | (JS.Throw msg, w') => (JS.Throw msg, w')
    end.
Proof.
  intros Hnot. apply Nat.eqb_neq in Hnot.
  unfold addDataset, JS.bind at 1, JS.get. rewrite Hnot.
  unfold JS.bind, JS.ret.
  by destruct (super_addDataset keyOrDataset dataset w) as [[[]|msg] w'].
Qed.

Lemma addDataset_passed_on_unless_one_witness :
  addDataset (H := idle_super) (Key "c") (Some [9]) two_dataset_world =
    match @super_addDataset _ _ _ idle_super (Key "c") (Some [9])
            two_dataset_world with
    | (JS.Return _, w') => (JS.Return tt, w')
    | (JS.Throw msg, w') => (JS.Throw msg, w')
    end.
Proof.
  apply (addDataset_passed_on_unless_one (inherited := idle_super)
           two_dataset_world (Key "c") (Some [9])).
  simpl. lia.
Defined.

End GridGuardFacts.

(** ** The rectangle drawer: order, errors and unpainted rectangles *)

Section DrawerMoreFacts.
Import RectangleDrawer DrawerSpec DrawerSpecMore.
Context {Datum : Type} `{D3}.

(** X18.  When every datum's stroke and fill are absent or colours [d3] can
    parse, and its opacity is absent or truthy, [_canvasDraw] returns
    normally and has drawn the data in input order: for each datum the
    rectangle path, then the stroke when there is a stroke colour, then the
    fill when there is a fill colour, each in the colour with the resolved
    opacity. *)
Theorem canvasDraw_draws_in_input_order (step : @AppliedDrawStep Datum)
    (data : list Datum) (ctx : Context) :
  (forall index point,
     data !! index = Some point ->
     let resolvedAttrs := resolve step point index in
     colour_or_absent (attr resolvedAttrs "stroke")
     /\ colour_or_absent (attr resolvedAttrs "fill")
     /\ opacity_seen_or_absent (attr resolvedAttrs "opacity")) ->
  exists ctx',
    _canvasDraw data step ctx = (JS.Return tt, ctx')
    /\ drawn ctx' = drawn ctx ++ specified_calls_from step 0 data.
Proof.
  intros Hok. apply (canvasDraw_as_specified step data 0 ctx Hok).
Qed.

(** A datum whose stroke is truthy but no colour stops the drawing after
    its path was issued. *)
Lemma drawPoint_unparsable_stroke (step : @AppliedDrawStep Datum)
    (point : Datum) (index : nat) (ctx : Context) :
  let resolvedAttrs := resolve step point index in
  JS.truthy (attr resolvedAttrs "stroke") = true ->
  color (attr resolvedAttrs "stroke") = None ->
  drawPoint step point index ctx =
    (JS.Throw "TypeError: strokeColor is null",
     mkContext (strokeStyle ctx) (fillStyle ctx)
       (drawn ctx ++
          [BeginPath;
           Rect (attr resolvedAttrs "x") (attr resolvedAttrs "y")
                (attr resolvedAttrs "width") (attr resolvedAttrs "height")])).
Proof.
  intros ra Htruthy Hnone. unfold drawPoint. fold ra.
  unfold JS.bind, beginPath, rect, draw, when, JS.modify.
  rewrite Htruthy, Hnone. unfold JS.throw. simpl. by rewrite <- app_assoc.
Qed.

(** X19.  A stroke that is truthy but that [d3] cannot parse makes
    [_canvasDraw] throw a [TypeError] in the middle of the data: the data
    before the offending datum are drawn in full, the offending datum has
    its rectangle path issued but nothing painted, and nothing of the data
    after it is drawn. *)
Theorem canvasDraw_unparsable_stroke_stops (step : @AppliedDrawStep Datum)
    (before after : list Datum) (bad : Datum) (ctx : Context) :
  (forall index point,
     before !! index = Some point ->
     let resolvedAttrs := resolve step point index in
     colour_or_absent (attr resolvedAttrs "stroke")
     /\ colour_or_absent (attr resolvedAttrs "fill")
     /\ opacity_seen_or_absent (attr resolvedAttrs "opacity")) ->
  let badAttrs := resolve step bad (length before) in
  JS.truthy (attr badAttrs "stroke") = true ->
  color (attr badAttrs "stroke") = None ->
  exists ctx',
    _canvasDraw (before ++ bad :: after) step ctx =
      (JS.Throw "TypeError: strokeColor is null", ctx')
    /\ drawn ctx' =
         drawn ctx ++ specified_calls_from step 0 before
         ++ [BeginPath;
             Rect (attr badAttrs "x") (attr badAttrs "y")
                  (attr badAttrs "width") (attr badAttrs "height")].
Proof.
  intros Hok badAttrs Htruthy Hnone.
  destruct (canvasDraw_as_specified step before 0 ctx Hok)
    as (ctx1 & Hrun1 & Hdrawn1).
  unfold _canvasDraw, JS.forEach. rewrite forEach_from_app.
  unfold JS.bind at 1. rewrite Hrun1. cbn [JS.forEach_from Nat.add].
  unfold JS.bind at 1.
  rewrite (drawPoint_unparsable_stroke step bad (length before) ctx1
             Htruthy Hnone).
  eexists. split; [reflexivity|]. simpl. by rewrite Hdrawn1, <- app_assoc.
Qed.

(** Data whose stroke and fill are falsy are not painted. *)
Lemma forEach_falsy_paths (step : @AppliedDrawStep Datum)
    (data : list Datum) :
  forall (i : nat) (ctx : Context),
    (forall k point,
       data !! k = Some point ->
       JS.truthy (attr (resolve step point (i + k)) "stroke") = false
       /\ JS.truthy (attr (resolve step point (i + k)) "fill") = false) ->
    JS.forEach_from (drawPoint step) i data ctx =
      (JS.Return tt,
       mkContext (strokeStyle ctx) (fillStyle ctx)
         (drawn ctx ++ paths_from step i data)).
Proof.
  induction data as [|point data IH]; intros i ctx Hfalsy.
  - simpl. unfold JS.ret. destruct ctx. simpl. by rewrite app_nil_r.
  - destruct (Hfalsy 0 point eq_refl) as [Hs Hf].
    rewrite Nat.add_0_r in Hs, Hf.
    cbn [JS.forEach_from paths_from].
    unfold JS.bind at 1. unfold drawPoint at 1.
    unfold JS.bind, beginPath, rect, draw, when, JS.modify.
    rewrite Hs, Hf. unfold JS.ret. cbn [strokeStyle fillStyle drawn].
    rewrite IH.
    + cbn [strokeStyle fillStyle drawn]. by rewrite <- !app_assoc.
    + intros k p Hk. specialize (Hfalsy (S k) p Hk).
      by replace (S i + k) with (i + S k) by lia.
Qed.

(** X20.  A stroke or fill that is falsy without being absent (the empty
    string, the number 0, [false]) is skipped like an absent one: when every
    datum's stroke and fill are falsy, [_canvasDraw] returns normally
    whatever [d3] and the opacity are, leaves both styles as they were, and
    issues nothing but the rectangle path of each datum, in input order. *)
Theorem canvasDraw_falsy_paints_nothing (step : @AppliedDrawStep Datum)
    (data : list Datum) (ctx : Context) :
  (forall index point,
     data !! index = Some point ->
     JS.truthy (attr (resolve step point index) "stroke") = false
     /\ JS.truthy (attr (resolve step point index) "fill") = false) ->
  _canvasDraw data step ctx =
    (JS.Return tt,
     mkContext (strokeStyle ctx) (fillStyle ctx)
       (drawn ctx ++ paths_from step 0 data)).
Proof.
  intros Hfalsy. apply (forEach_falsy_paths step data 0 ctx Hfalsy).
Qed.

End DrawerMoreFacts.

Section DrawerMoreExampleFacts.
Import RectangleDrawer DrawerSpec DrawerSpecMore DrawerExamples
  MoreDrawerExamples.

Lemma stroked_ok (index point : nat) :
  [1; 2] !! index = Some point ->
  let resolvedAttrs := resolve stroked point index in
  colour_or_absent (H := red_only) (attr resolvedAttrs "stroke")
  /\ colour_or_absent (H := red_only) (attr resolvedAttrs "fill")
  /\ opacity_seen_or_absent (attr resolvedAttrs "opacity").
Proof.
  destruct index as [|[|index]]; intros Hp; try discriminate;
    injection Hp as <-; cbv zeta; vm_compute;
    (split; [right; right; split; [reflexivity|by eexists]|]);
    split; by left.
Qed.

Lemma canvasDraw_draws_in_input_order_witness :
  exists ctx',
    _canvasDraw (H := red_only) [1; 2] stroked blank = (JS.Return tt, ctx')
    /\ drawn ctx' =
       drawn blank ++ specified_calls_from (H := red_only) stroked 0 [1; 2].
Proof.
  apply (canvasDraw_draws_in_input_order (H := red_only) stroked [1; 2] blank).
  exact stroked_ok.
Defined.

Lemma canvasDraw_unparsable_stroke_stops_witness :
  exists ctx',
    _canvasDraw (H := red_only) ([1; 2] ++ 0 :: [3]) stroked blank =
      (JS.Throw "TypeError: strokeColor is null", ctx')
    /\ drawn ctx' =
         drawn blank ++ specified_calls_from (H := red_only) stroked 0 [1; 2]
         ++ [BeginPath;
             Rect (attr (resolve stroked 0 (length [1; 2])) "x")
                  (attr (resolve stroked 0 (length [1; 2])) "y")
                  (attr (resolve stroked 0 (length [1; 2])) "width")
                  (attr (resolve stroked 0 (length [1; 2])) "height")].
Proof.
  apply (canvasDraw_unparsable_stroke_stops (H := red_only) stroked
           [1; 2] [3] 0 blank);
    [exact stroked_ok | reflexivity | reflexivity].
Defined.

Lemma canvasDraw_falsy_paints_nothing_witness :
  _canvasDraw (H := red_only) [1; 2] unpainted blank =
    (JS.Return tt,
     mkContext (strokeStyle blank) (fillStyle blank)
       (drawn blank ++ paths_from unpainted 0 [1; 2])).
Proof.
  apply (canvasDraw_falsy_paints_nothing (H := red_only) unpainted [1; 2]
           blank).
  intros [|[|index]] point Hp; try discriminate; injection Hp as <-;
    split; reflexivity.
Defined.

End DrawerMoreExampleFacts.
